(** * The chain controller of a delegated-proof-of-stake node

    A shallow embedding of [eos/chain/chain_controller.hpp]: the validation
    skip flags, the scoped modifiers ([with_skip_flags], [with_producing],
    [without_pending_transactions]) and [register_type] are translated from
    the header; the operations the header only declares (slot calculus, the
    block and transaction pipeline, the fork database) are modelled from the
    design document and marked as such. *)

From Stdlib Require Import ZArith NArith Lia.
From stdpp Require Import base option list gmap strings sorting.

Set Default Proof Using "Type".
Open Scope N_scope.

(** ** Basic types *)

(** Account names are 64-bit words, type and field names are strings,
    timestamps ([fc::time_point_sec]) count seconds since the epoch. *)
Abbreviation AccountName := N (only parsing).
Abbreviation TypeName := string (only parsing).
Abbreviation FieldName := string (only parsing).
Abbreviation time_point_sec := N (only parsing).
Abbreviation block_id_type := N (only parsing).
Abbreviation transaction_id_type := N (only parsing).

(** ** The validation skip flags ([enum validation_steps]) *)

Inductive validation_steps :=
  | skip_nothing
  | skip_producer_signature
  | skip_transaction_signatures
  | skip_transaction_dupe_check
  | skip_fork_db
  | skip_block_size_check
  | skip_tapos_check
  | skip_authority_check
  | skip_merkle_check
  | skip_assert_evaluation
  | skip_undo_history_check
  | skip_producer_schedule_check
  | skip_validate.

(** The enumerator values, as the header writes them. *)
Definition flag_value (s : validation_steps) : Z :=
  match s with
  | skip_nothing                 => 0
  | skip_producer_signature      => Z.shiftl 1 0
  | skip_transaction_signatures  => Z.shiftl 1 1
  | skip_transaction_dupe_check  => Z.shiftl 1 2
  | skip_fork_db                 => Z.shiftl 1 3
  | skip_block_size_check        => Z.shiftl 1 4
  | skip_tapos_check             => Z.shiftl 1 5
  | skip_authority_check         => Z.shiftl 1 6
  | skip_merkle_check            => Z.shiftl 1 7
  | skip_assert_evaluation       => Z.shiftl 1 8
  | skip_undo_history_check      => Z.shiftl 1 9
  | skip_producer_schedule_check => Z.shiftl 1 10
  | skip_validate                => Z.shiftl 1 11
  end%Z.

Definition all_validation_steps : list validation_steps :=
  [ skip_nothing; skip_producer_signature; skip_transaction_signatures;
    skip_transaction_dupe_check; skip_fork_db; skip_block_size_check;
    skip_tapos_check; skip_authority_check; skip_merkle_check;
    skip_assert_evaluation; skip_undo_history_check;
    skip_producer_schedule_check; skip_validate ].

#[global] Instance validation_steps_eq_dec : EqDecision validation_steps.
Proof. solve_decision. Defined.

(** [flags & step], as a C++ condition: true when the result is non-zero. *)
Definition flag_set (flags : Z) (s : validation_steps) : bool :=
  negb (Z.land flags (flag_value s) =? 0)%Z.

(** The table of the design document (bit position, name), row by row. *)
Definition skip_bit_table : list (Z * validation_steps) :=
  [ (0, skip_producer_signature); (1, skip_transaction_signatures);
    (2, skip_transaction_dupe_check); (3, skip_fork_db);
    (4, skip_block_size_check); (5, skip_tapos_check);
    (6, skip_authority_check); (7, skip_merkle_check);
    (8, skip_assert_evaluation); (9, skip_undo_history_check);
    (10, skip_producer_schedule_check); (11, skip_validate) ]%Z.

(** ** Protocol types *)

Module Field.
Record Field := { name : FieldName; type : TypeName }.
End Field.
Abbreviation Field := Field.Field.

(** [eos::types::Struct], the description [GetStruct<T>::type()] returns. *)
Module Struct.
Record Struct := { name : TypeName; base : TypeName; fields : list Field }.
End Struct.
Abbreviation Struct := Struct.Struct.

Module Message.
Record Message := {
  sender : AccountName;
  recipient : AccountName;
  scope : AccountName;
  type : TypeName;
  payload : list N;
  authorization : list AccountName }.
End Message.
Abbreviation Message := Message.Message.

Module SignedTransaction.
Record SignedTransaction := {
  ref_block_num : N;
  ref_block_prefix : N;
  expiration : time_point_sec;
  messages : list Message;
  signatures : list N }.
End SignedTransaction.
Abbreviation SignedTransaction := SignedTransaction.SignedTransaction.

Module signed_block.
Record signed_block := {
  previous : block_id_type;
  timestamp : time_point_sec;
  producer : AccountName;
  transaction_mroot : N;
  producer_signature : N;
  transactions : list SignedTransaction }.
End signed_block.
Abbreviation signed_block := signed_block.signed_block.

(** ** External collaborators

    The object store's contract data, the cryptographic primitives and the
    wire format are outside the controller; it consumes them through these
    interfaces. *)

Class Store := {
  (** the part of the object store that message handlers read and write *)
  contract_state : Type;
  account_exists : contract_state → AccountName → bool;
  (** signatures (verified when the flag is set) and permission graph meet
      the threshold of every authorization *)
  authority_satisfied : contract_state → bool → SignedTransaction → bool;
  (** the producers elected for the next round, shuffled by the given seed *)
  elect_producers : contract_state → block_id_type → list AccountName → list AccountName;
  (** the medians of the producers' votes: block size limit, transaction lifetime *)
  median_configuration : contract_state → list AccountName → N * N }.

Class Crypto := {
  block_digest : signed_block → N;
  transaction_digest : SignedTransaction → transaction_id_type;
  merkle : list SignedTransaction → N;
  (** the producer signature of the block recovers to the given signing key *)
  signee_matches : signed_block → N → bool;
  (** the payload decodes against the field layout of its declared type *)
  decodable : list Field → list N → bool;
  (** the part of a block id a transaction quotes as [ref_block_prefix] *)
  id_prefix : block_id_type → N;
  sign_block : signed_block → N → N;
  transaction_size : SignedTransaction → N }.

(** The constants of [config::] the controller reads. *)
Class Config := {
  BlockIntervalSeconds : N;
  ProducerCount : N;
  (** the contract under which default handlers are registered *)
  wildcard_contract : AccountName }.

(** ** Objects of the store *)

Module type_object.
Record type_object := {
  id : N;
  scope : AccountName;
  name : TypeName;
  base_scope : AccountName;
  base : TypeName;
  fields : list Field }.
End type_object.
Abbreviation type_object := type_object.type_object.

Module producer_object.
Record producer_object := {
  owner : AccountName;
  signing_key : N;
  last_produced_block_num : N }.
End producer_object.
Abbreviation producer_object := producer_object.producer_object.

Module dynamic_global_property_object.
Record dynamic_global_property_object := {
  head_block_id : block_id_type;
  head_block_number : N;
  time : time_point_sec;
  current_producer : AccountName;
  last_irreversible_block_num : N;
  recent_slots_filled : N }.
End dynamic_global_property_object.
Abbreviation dynamic_global_property_object :=
  dynamic_global_property_object.dynamic_global_property_object.
Module dgpo := dynamic_global_property_object.

Module global_property_object.
Record global_property_object := {
  active_producers : list AccountName;
  max_block_size : N;
  max_transaction_lifetime : N }.
End global_property_object.
Abbreviation global_property_object := global_property_object.global_property_object.
Module gpo := global_property_object.

(** One state of the store: every index the controller keeps, and the
    contract data. *)
Record objects `{Store} := {
  type_index : list type_object;
  type_next_id : N;
  dynamic_global_properties : dynamic_global_property_object;
  global_properties : global_property_object;
  producers : gmap AccountName producer_object;
  recent_transactions : gmap transaction_id_type time_point_sec;
  block_summaries : gmap N block_id_type;
  contract : contract_state }.

(** The store with its stack of savepoints: [undo_stack] holds, newest
    first, the state saved when each open or committed session began. *)
Record database `{Store} := {
  state : objects;
  undo_stack : list objects }.

(** ** Fork database *)

Module item.
Record item := {
  data : signed_block;
  id : block_id_type;
  previous_id : block_id_type;
  num : N;
  validated : bool;
  in_current_branch : bool }.
End item.
Abbreviation item := item.item.

Record fork_database := {
  _index : gmap block_id_type item;
  _head : option block_id_type }.

(** ** Handlers *)

Abbreviation handler_key := (AccountName * TypeName)%type (only parsing).

Definition message_validate_handler := Message → bool.
Definition precondition_validate_handler `{Store} := contract_state → Message → bool.
Definition apply_handler `{Store} := Message → contract_state → option contract_state.

(** ** The controller *)

Inductive session := Session.

Record chain_controller `{Store} := {
  _db : database;
  _fork_db : fork_database;
  _block_log : list signed_block;
  _pending_tx_session : option session;
  _pending_transactions : list SignedTransaction;
  _producing : bool;
  _pushing : bool;
  _skip_flags : Z;
  _checkpoints : gmap N block_id_type;
  message_validate_handlers : gmap AccountName (gmap handler_key message_validate_handler);
  precondition_validate_handlers : gmap AccountName (gmap handler_key precondition_validate_handler);
  apply_handlers : gmap AccountName (gmap handler_key apply_handler) }.

(** ** Errors and the controller monad *)

(** The error kinds of the design document. *)
Inductive error_kind :=
  | InvalidBlockHeader | UnknownParent | BadSignature | WrongProducer
  | BadTimestamp | MerkleMismatch | CheckpointMismatch | DuplicateTransaction
  | ExpiredTransaction | TaposMismatch | UnknownAccount | UnknownMessageType
  | AuthorityInsufficient | HandlerMissing | HandlerAssert | ReorgFailure
  | IrreversibleViolation.

(** What a controller operation can throw: a chain error, or one of the two
    exceptions of the store ([create] on a uniqueness violation, [get] on a
    missing key). *)
Inductive exception :=
  | chain_error (k : error_kind)
  | logic_error
  | out_of_range.

Inductive outcome (A : Type) :=
  | Returned (a : A)
  | Thrown (e : exception).
Arguments Returned {A} a.
Arguments Thrown {A} e.

Definition returned {A} (o : outcome A) : bool :=
  match o with Returned _ => true | Thrown _ => false end.

Section Controller.
Context `{Store} `{Crypto} `{Config}.

(** Field updates on the controller. *)
Definition set_db (d : database) (c : chain_controller) : chain_controller :=
  {| _db := d; _fork_db := _fork_db c; _block_log := _block_log c;
     _pending_tx_session := _pending_tx_session c;
     _pending_transactions := _pending_transactions c;
     _producing := _producing c; _pushing := _pushing c;
     _skip_flags := _skip_flags c; _checkpoints := _checkpoints c;
     message_validate_handlers := message_validate_handlers c;
     precondition_validate_handlers := precondition_validate_handlers c;
     apply_handlers := apply_handlers c |}.

Definition set_fork_db (f : fork_database) (c : chain_controller) : chain_controller :=
  {| _db := _db c; _fork_db := f; _block_log := _block_log c;
     _pending_tx_session := _pending_tx_session c;
     _pending_transactions := _pending_transactions c;
     _producing := _producing c; _pushing := _pushing c;
     _skip_flags := _skip_flags c; _checkpoints := _checkpoints c;
     message_validate_handlers := message_validate_handlers c;
     precondition_validate_handlers := precondition_validate_handlers c;
     apply_handlers := apply_handlers c |}.

Definition set_block_log (l : list signed_block) (c : chain_controller) : chain_controller :=
  {| _db := _db c; _fork_db := _fork_db c; _block_log := l;
     _pending_tx_session := _pending_tx_session c;
     _pending_transactions := _pending_transactions c;
     _producing := _producing c; _pushing := _pushing c;
     _skip_flags := _skip_flags c; _checkpoints := _checkpoints c;
     message_validate_handlers := message_validate_handlers c;
     precondition_validate_handlers := precondition_validate_handlers c;
     apply_handlers := apply_handlers c |}.

Definition set_pending_tx_session (s : option session) (c : chain_controller) : chain_controller :=
  {| _db := _db c; _fork_db := _fork_db c; _block_log := _block_log c;
     _pending_tx_session := s;
     _pending_transactions := _pending_transactions c;
     _producing := _producing c; _pushing := _pushing c;
     _skip_flags := _skip_flags c; _checkpoints := _checkpoints c;
     message_validate_handlers := message_validate_handlers c;
     precondition_validate_handlers := precondition_validate_handlers c;
     apply_handlers := apply_handlers c |}.

Definition set_pending_transactions (q : list SignedTransaction) (c : chain_controller) : chain_controller :=
  {| _db := _db c; _fork_db := _fork_db c; _block_log := _block_log c;
     _pending_tx_session := _pending_tx_session c;
     _pending_transactions := q;
     _producing := _producing c; _pushing := _pushing c;
     _skip_flags := _skip_flags c; _checkpoints := _checkpoints c;
     message_validate_handlers := message_validate_handlers c;
     precondition_validate_handlers := precondition_validate_handlers c;
     apply_handlers := apply_handlers c |}.

Definition set_producing (b : bool) (c : chain_controller) : chain_controller :=
  {| _db := _db c; _fork_db := _fork_db c; _block_log := _block_log c;
     _pending_tx_session := _pending_tx_session c;
     _pending_transactions := _pending_transactions c;
     _producing := b; _pushing := _pushing c;
     _skip_flags := _skip_flags c; _checkpoints := _checkpoints c;
     message_validate_handlers := message_validate_handlers c;
     precondition_validate_handlers := precondition_validate_handlers c;
     apply_handlers := apply_handlers c |}.

Definition set_skip_flags (f : Z) (c : chain_controller) : chain_controller :=
  {| _db := _db c; _fork_db := _fork_db c; _block_log := _block_log c;
     _pending_tx_session := _pending_tx_session c;
     _pending_transactions := _pending_transactions c;
     _producing := _producing c; _pushing := _pushing c;
     _skip_flags := f; _checkpoints := _checkpoints c;
     message_validate_handlers := message_validate_handlers c;
     precondition_validate_handlers := precondition_validate_handlers c;
     apply_handlers := apply_handlers c |}.

(** A method of the controller: it runs on the controller's state and either
    returns or throws; what it wrote before throwing stays written. *)
Definition M (A : Type) : Type := chain_controller → outcome A * chain_controller.

#[global] Instance M_ret : MRet M := λ A a c, (Returned a, c).
#[global] Instance M_bind : MBind M := λ A B k m c,
  match m c with
  | (Returned a, c') => k a c'
  | (Thrown e, c') => (Thrown e, c')
  end.

Definition throw {A} (e : exception) : M A := λ c, (Thrown e, c).
Definition gets {A} (f : chain_controller → A) : M A := λ c, (Returned (f c), c).
Definition modify (f : chain_controller → chain_controller) : M unit :=
  λ c, (Returned (), f c).

(** [try { m } catch ( ... ) {}] *)
Definition try_catch_all (m : M unit) : M unit :=
  λ c, (Returned (), (m c).2).

(** [auto on_exit = fc::make_scoped_exit(callback); body]: the callback runs
    when the scope is left, by return or by exception; the guard's destructor
    swallows what the callback throws. *)
Definition scoped_exit {A} (callback : M unit) (body : M A) : M A :=
  λ c, let r := body c in (r.1, (callback r.2).2).

(** [for( const auto& t : l ) body(t);] *)
Fixpoint for_each {A} (l : list A) (body : A → M unit) : M unit :=
  match l with
  | [] => mret ()
  | t :: l' => body t;; for_each l' body
  end.

(** *** The store's sessions

    Modelled from the spec: the external versioned object store. Opening a
    session saves the state; [undo] drops the newest savepoint and restores
    its state (nothing happens without a savepoint); [squash] merges the
    newest savepoint into the one below it. *)
Definition start_undo_session (d : database) : database :=
  {| state := state d; undo_stack := state d :: undo_stack d |}.

Definition undo (d : database) : database :=
  match undo_stack d with
  | [] => d
  | s :: st => {| state := s; undo_stack := st |}
  end.

Definition squash (d : database) : database :=
  {| state := state d; undo_stack := tail (undo_stack d) |}.

Definition set_state (o : objects) (d : database) : database :=
  {| state := o; undo_stack := undo_stack d |}.

(** [_pending_tx_session.reset()]: destroying an open session undoes it. *)
Definition reset_pending_tx_session : M unit :=
  modify (λ c, match _pending_tx_session c with
               | Some _ => set_pending_tx_session None (set_db (undo (_db c)) c)
               | None => c
               end).

(** ** The scoped modifiers of the header *)

Definition with_skip_flags {A} (flags : Z) (f : M A) : M A :=
  old_flags ← gets _skip_flags;
  scoped_exit (modify (set_skip_flags old_flags))
    (modify (set_skip_flags flags);; f).

Definition with_producing {A} (f : M A) : M A :=
  old_producing ← gets _producing;
  scoped_exit (modify (set_producing old_producing))
    (modify (set_producing true);; f).

Section WithoutPending.
(** [push_transaction] is declared in the header and defined elsewhere;
    the modifier is translated over any definition of it. *)
Variable push_transaction : SignedTransaction → Z → M unit.

Definition without_pending_transactions {A} (f : M A) : M A :=
  old_pending ← gets _pending_transactions;
  modify (set_pending_transactions []);;
  reset_pending_tx_session;;
  scoped_exit
    (for_each old_pending
       (λ t, try_catch_all (push_transaction t (flag_value skip_nothing))))
    f.
End WithoutPending.

(** ** [register_type]

    The store's [create] and [get] for the type index. The index holds its
    objects under two unique keys, [by_id] and [by_scope_name]. *)

(** A freshly constructed [type_object]: every member value-initialised. *)
Definition type_object_default : type_object :=
  {| type_object.id := 0; type_object.scope := 0; type_object.name := "";
     type_object.base_scope := 0; type_object.base := "";
     type_object.fields := [] |}.

Definition by_scope_name (o : type_object) : AccountName * TypeName :=
  (type_object.scope o, type_object.name o).

Definition set_type_index (ix : list type_object) (next_id : N) (o : objects) : objects :=
  {| type_index := ix; type_next_id := next_id;
     dynamic_global_properties := dynamic_global_properties o;
     global_properties := global_properties o;
     producers := producers o;
     recent_transactions := recent_transactions o;
     block_summaries := block_summaries o;
     contract := contract o |}.

(** [find<type_object, by_scope_name>(key)] *)
Definition find_type (key : AccountName * TypeName) (ix : list type_object) : option type_object :=
  list_find (λ o, by_scope_name o = key) ix ≫= λ r, Some r.2.

Definition set_id (i : N) (o : type_object) : type_object :=
  {| type_object.id := i; type_object.scope := type_object.scope o;
     type_object.name := type_object.name o;
     type_object.base_scope := type_object.base_scope o;
     type_object.base := type_object.base o;
     type_object.fields := type_object.fields o |}.

(** [_db.create<type_object>(constructor)]: the object gets the next id, the
    constructor fills it, and the insertion fails when one of the two unique
    keys is taken. *)
Definition create_type_object (constructor : type_object → type_object) : M type_object :=
  λ c,
    let o := state (_db c) in
    let v := constructor (set_id (type_next_id o) type_object_default) in
    if bool_decide (Exists (λ w, type_object.id w = type_object.id v
                                 ∨ by_scope_name w = by_scope_name v) (type_index o))
    then (Thrown logic_error, c)
    else (Returned v,
          set_db (set_state (set_type_index (type_index o ++ [v]) (type_next_id o + 1) o)
                    (_db c)) c).

(** [_db.get<type_object, by_scope_name>(key)] *)
Definition get_type_object (key : AccountName * TypeName) : M type_object :=
  λ c, match find_type key (type_index (state (_db c))) with
       | Some o => (Returned o, c)
       | None => (Thrown out_of_range, c)
       end.

(** [o.fields.push_back(f)] *)
Definition fields_push_back (f : Field) (o : type_object) : type_object :=
  {| type_object.id := type_object.id o; type_object.scope := type_object.scope o;
     type_object.name := type_object.name o;
     type_object.base_scope := type_object.base_scope o;
     type_object.base := type_object.base o;
     type_object.fields := type_object.fields o ++ [f] |}.

(** Every object of the type index has an id below the next one to hand
    out, as in a store that only ever [create]s. *)
Definition ids_fresh (o : objects) : Prop :=
  Forall (λ w, type_object.id w < type_next_id o) (type_index o).

(** The constructor lambda of [register_type]: it assigns [scope], [name]
    and [base], then pushes the fields one by one. *)
Definition register_type_constructor (stru : Struct) (scope : AccountName)
    (o : type_object) : type_object :=
  let o1 :=
    {| type_object.id := type_object.id o; type_object.scope := scope;
       type_object.name := Struct.name stru;
       type_object.base_scope := type_object.base_scope o;
       type_object.base := Struct.base stru;
       type_object.fields := type_object.fields o |} in
  foldl (λ acc f, fields_push_back f acc) o1 (Struct.fields stru).

(** [register_type<T>(scope)], with [stru] the description of [T]. *)
Definition register_type (stru : Struct) (scope : AccountName) : M unit :=
  create_type_object (register_type_constructor stru scope);;
  get_type_object (scope, Struct.name stru);;
  mret ().

(** ** Accessors *)

Definition set_dynamic_global_properties (d : dynamic_global_property_object)
    (o : objects) : objects :=
  {| type_index := type_index o; type_next_id := type_next_id o;
     dynamic_global_properties := d;
     global_properties := global_properties o;
     producers := producers o;
     recent_transactions := recent_transactions o;
     block_summaries := block_summaries o;
     contract := contract o |}.

Definition set_global_properties (g : global_property_object) (o : objects) : objects :=
  {| type_index := type_index o; type_next_id := type_next_id o;
     dynamic_global_properties := dynamic_global_properties o;
     global_properties := g;
     producers := producers o;
     recent_transactions := recent_transactions o;
     block_summaries := block_summaries o;
     contract := contract o |}.

Definition set_producers (p : gmap AccountName producer_object) (o : objects) : objects :=
  {| type_index := type_index o; type_next_id := type_next_id o;
     dynamic_global_properties := dynamic_global_properties o;
     global_properties := global_properties o;
     producers := p;
     recent_transactions := recent_transactions o;
     block_summaries := block_summaries o;
     contract := contract o |}.

Definition set_recent_transactions (r : gmap transaction_id_type time_point_sec)
    (o : objects) : objects :=
  {| type_index := type_index o; type_next_id := type_next_id o;
     dynamic_global_properties := dynamic_global_properties o;
     global_properties := global_properties o;
     producers := producers o;
     recent_transactions := r;
     block_summaries := block_summaries o;
     contract := contract o |}.

Definition set_block_summaries (b : gmap N block_id_type) (o : objects) : objects :=
  {| type_index := type_index o; type_next_id := type_next_id o;
     dynamic_global_properties := dynamic_global_properties o;
     global_properties := global_properties o;
     producers := producers o;
     recent_transactions := recent_transactions o;
     block_summaries := b;
     contract := contract o |}.

Definition set_contract (s : contract_state) (o : objects) : objects :=
  {| type_index := type_index o; type_next_id := type_next_id o;
     dynamic_global_properties := dynamic_global_properties o;
     global_properties := global_properties o;
     producers := producers o;
     recent_transactions := recent_transactions o;
     block_summaries := block_summaries o;
     contract := s |}.

Definition get_dynamic_global_properties (c : chain_controller) : dynamic_global_property_object :=
  dynamic_global_properties (state (_db c)).
Definition get_global_properties (c : chain_controller) : global_property_object :=
  global_properties (state (_db c)).

Definition head_block_time (c : chain_controller) : time_point_sec :=
  dgpo.time (get_dynamic_global_properties c).
Definition head_block_num (c : chain_controller) : N :=
  dgpo.head_block_number (get_dynamic_global_properties c).
Definition head_block_id (c : chain_controller) : block_id_type :=
  dgpo.head_block_id (get_dynamic_global_properties c).
Definition last_irreversible_block_num (c : chain_controller) : N :=
  dgpo.last_irreversible_block_num (get_dynamic_global_properties c).

(** [uint32_t block_interval()const { return config::BlockIntervalSeconds; }] *)
Definition block_interval (c : chain_controller) : N := BlockIntervalSeconds.

Definition should_check_for_duplicate_transactions (c : chain_controller) : bool :=
  negb (flag_set (_skip_flags c) skip_transaction_dupe_check).
Definition should_check_tapos (c : chain_controller) : bool :=
  negb (flag_set (_skip_flags c) skip_tapos_check).

Definition get_state : M objects := gets (λ c, state (_db c)).
Definition modify_state (f : objects → objects) : M unit :=
  modify (λ c, set_db (set_state (f (state (_db c))) (_db c)) c).
(** [EOS_ASSERT(cond, kind)] *)
Definition check (cond : bool) (k : error_kind) : M unit :=
  if cond then mret () else throw (chain_error k).
Definition skipping (s : validation_steps) : M bool :=
  gets (λ c, flag_set (_skip_flags c) s).

(** ** Slot calculus *)

(** Modelled from the spec: [get_slot_time], declared in the header and
    defined elsewhere. Slot 0 is the default [time_point_sec]; slot [N > 0]
    is the [N]th interval-aligned time after the head block time. *)
Definition get_slot_time (c : chain_controller) (slot_num : N) : time_point_sec :=
  if slot_num =? 0 then 0
  else
    let interval := block_interval c in
    let head_block_abs_slot := head_block_time c / interval in
    head_block_abs_slot * interval + slot_num * interval.

(** Modelled from the spec: [get_slot_at_time], declared in the header and
    defined elsewhere: the last slot at or before the given time, 0 before
    the first slot. *)
Definition get_slot_at_time (c : chain_controller) (when : time_point_sec) : N :=
  let first_slot_time := get_slot_time c 1 in
  if when <? first_slot_time then 0
  else (when - first_slot_time) / block_interval c + 1.

(** The slots that have elapsed between the head block and a time: the
    difference of their absolute slot numbers. *)
Definition slots_elapsed (c : chain_controller) (t : time_point_sec) : N :=
  t / block_interval c - head_block_time c / block_interval c.

Definition interval_aligned (c : chain_controller) (t : time_point_sec) : Prop :=
  t mod block_interval c = 0.

(** ** Producer schedule *)

(** Modelled from the spec: [get_scheduled_producer], declared in the header
    and defined elsewhere. Slot 0 has the null producer. *)
Definition get_scheduled_producer (c : chain_controller) (slot_num : N) : AccountName :=
  if slot_num =? 0 then 0
  else
    let round := gpo.active_producers (get_global_properties c) in
    default 0 (round !! N.to_nat ((slot_num - 1) mod N.of_nat (length round))).

(** ** Handler registry *)

(** Modelled from the spec: handler dispatch by (contract, scope, action),
    falling back to the handler registered under the wildcard contract. *)
Definition find_handler {V} (table : gmap AccountName (gmap handler_key V))
    (m : Message) : option V :=
  let key := (Message.scope m, Message.type m) in
  match table !! Message.recipient m ≫= (λ t, t !! key) with
  | Some h => Some h
  | None => table !! wildcard_contract ≫= (λ t, t !! key)
  end.

Definition require_handler {V} (h : option V) : M V :=
  match h with
  | Some v => mret v
  | None => throw (chain_error HandlerMissing)
  end.

(** ** Validation pipeline

    Modelled from the spec: the stages of [validate_transaction], declared in
    the header and defined elsewhere, in the order of the design document. *)

Definition validate_expiration (trx : SignedTransaction) : M unit :=
  chk ← gets should_check_tapos;
  if chk : bool then
    now ← gets head_block_time;
    g ← gets get_global_properties;
    check ((now <? SignedTransaction.expiration trx)
           && (SignedTransaction.expiration trx <=? now + gpo.max_transaction_lifetime g))
          ExpiredTransaction
  else mret ().

Definition validate_uniqueness (trx : SignedTransaction) : M unit :=
  chk ← gets should_check_for_duplicate_transactions;
  if chk : bool then
    o ← get_state;
    check (bool_decide (recent_transactions o !! transaction_digest trx = None))
          DuplicateTransaction
  else mret ().

Definition validate_tapos (trx : SignedTransaction) : M unit :=
  chk ← gets should_check_tapos;
  if chk : bool then
    o ← get_state;
    match block_summaries o !! SignedTransaction.ref_block_num trx with
    | Some id => check (id_prefix id =? SignedTransaction.ref_block_prefix trx) TaposMismatch
    | None => throw (chain_error TaposMismatch)
    end
  else mret ().

Definition referenced_accounts (m : Message) : list AccountName :=
  Message.sender m :: Message.recipient m :: Message.scope m :: Message.authorization m.

Definition validate_referenced_accounts (trx : SignedTransaction) : M unit :=
  o ← get_state;
  check (forallb (λ m, forallb (account_exists (contract o)) (referenced_accounts m))
           (SignedTransaction.messages trx))
        UnknownAccount.

Definition validate_message_types (trx : SignedTransaction) : M unit :=
  o ← get_state;
  check (forallb (λ m, match find_type (Message.scope m, Message.type m) (type_index o) with
                       | Some t => decodable (type_object.fields t) (Message.payload m)
                       | None => false
                       end)
           (SignedTransaction.messages trx))
        UnknownMessageType.

Definition validate_authority (trx : SignedTransaction) : M unit :=
  skip_auth ← skipping skip_authority_check;
  if skip_auth : bool then mret ()
  else
    skip_sigs ← skipping skip_transaction_signatures;
    o ← get_state;
    check (authority_satisfied (contract o) (negb skip_sigs) trx) AuthorityInsufficient.

Definition validate_message (m : Message) : M unit :=
  skip ← skipping skip_validate;
  if skip : bool then mret ()
  else
    h ← (c ← gets message_validate_handlers; require_handler (find_handler c m));
    check (h m) HandlerAssert.

Definition validate_message_precondition (m : Message) : M unit :=
  h ← (c ← gets precondition_validate_handlers; require_handler (find_handler c m));
  o ← get_state;
  check (h (contract o) m) HandlerAssert.

Definition validate_transaction (trx : SignedTransaction) : M unit :=
  validate_expiration trx;;
  validate_uniqueness trx;;
  validate_tapos trx;;
  validate_referenced_accounts trx;;
  validate_message_types trx;;
  validate_authority trx;;
  for_each (SignedTransaction.messages trx)
    (λ m, validate_message m;; validate_message_precondition m).

(** ** Applying a transaction *)

Definition apply_message (m : Message) : M unit :=
  h ← (c ← gets apply_handlers; require_handler (find_handler c m));
  o ← get_state;
  match h m (contract o) with
  | Some s => modify_state (set_contract s)
  | None => throw (chain_error HandlerAssert)
  end.

(** The entry of the uniqueness index the pipeline writes. *)
Definition record_transaction (trx : SignedTransaction) : M unit :=
  modify_state (λ o, set_recent_transactions
    (<[transaction_digest trx := SignedTransaction.expiration trx]> (recent_transactions o)) o).

(** Modelled from the spec: [_apply_transaction], declared in the header and
    defined elsewhere. *)
Definition _apply_transaction (trx : SignedTransaction) : M unit :=
  validate_transaction trx;;
  record_transaction trx;;
  for_each (SignedTransaction.messages trx) apply_message.

(** Modelled from the spec: the transaction's session, nested in the open
    one: merged into it when the body returns, discarded when it throws. *)
Definition with_transaction_session {A} (body : M A) : M A :=
  λ c,
    match body (set_db (start_undo_session (_db c)) c) with
    | (Returned a, c') => (Returned a, set_db (squash (_db c')) c')
    | (Thrown e, c') => (Thrown e, set_db (undo (_db c')) c')
    end.

(** Modelled from the spec: [apply_transaction], declared in the header and
    defined elsewhere. *)
Definition apply_transaction (trx : SignedTransaction) (skip : Z) : M unit :=
  with_skip_flags skip (with_transaction_session (_apply_transaction trx)).

(** ** Block identifiers and the fork database *)

(** Modelled from the spec: a block id is a 32-byte hash whose first four
    bytes hold the block number, big-endian; a block's number is its
    parent's plus one. *)
Definition num_from_id (id : block_id_type) : N := N.shiftr id 224.

Definition block_num (b : signed_block) : N :=
  num_from_id (signed_block.previous b) + 1.

Definition block_id (b : signed_block) : block_id_type :=
  N.lor (N.shiftl (block_num b) 224) (N.land (block_digest b) (N.ones 224)).

Definition fork_head (f : fork_database) : option item :=
  _head f ≫= (λ i, _index f !! i).

Definition make_item (b : signed_block) : item :=
  {| item.data := b; item.id := block_id b;
     item.previous_id := signed_block.previous b; item.num := block_num b;
     item.validated := false; item.in_current_branch := false |}.

(** [a] wins over [b]: greater number, on equal numbers the smaller id. *)
Definition better (a b : item) : bool :=
  (item.num b <? item.num a)
  || ((item.num a =? item.num b) && (item.id a <? item.id b)).

(** Modelled from the spec: [fork_database::add]. The block links to a
    known parent (an empty database takes it as its root) and becomes the
    head when it wins over the current one. *)
Definition fork_db_add (b : signed_block) (f : fork_database) : option fork_database :=
  let it := make_item b in
  match fork_head f with
  | None => Some {| _index := <[item.id it := it]> (_index f); _head := Some (item.id it) |}
  | Some h =>
      match _index f !! signed_block.previous b with
      | Some _ =>
          Some {| _index := <[item.id it := it]> (_index f);
                  _head := if better it h then Some (item.id it) else _head f |}
      | None => None
      end
  end.

(** The ids of a set of blocks and of everything built on them. *)
Fixpoint descendants (fuel : nat) (ix : gmap block_id_type item)
    (ids : gset block_id_type) : gset block_id_type :=
  match fuel with
  | O => ids
  | S n => descendants n ix
             (ids ∪ dom (filter (λ kv, item.previous_id kv.2 ∈ ids) ix))
  end.

(** Modelled from the spec: [fork_database::remove] prunes the subtree. *)
Definition fork_db_remove (id : block_id_type) (f : fork_database) : fork_database :=
  let dead := descendants (size (_index f)) (_index f) {[id]} in
  {| _index := filter (λ kv, kv.1 ∉ dead) (_index f); _head := _head f |}.

Definition fork_db_set_head (h : option block_id_type) (f : fork_database) : fork_database :=
  {| _index := _index f; _head := h |}.

Definition set_item_flags (validated in_branch : bool) (it : item) : item :=
  {| item.data := item.data it; item.id := item.id it;
     item.previous_id := item.previous_id it; item.num := item.num it;
     item.validated := validated; item.in_current_branch := in_branch |}.

(** The block was applied: validated, and on the current branch. *)
Definition mark_applied (id : block_id_type) (f : fork_database) : fork_database :=
  {| _index := alter (set_item_flags true true) id (_index f); _head := _head f |}.

(** The block was popped: it stays validated and leaves the current branch. *)
Definition mark_popped (id : block_id_type) (f : fork_database) : fork_database :=
  {| _index := alter (λ it, set_item_flags (item.validated it) false it) id (_index f);
     _head := _head f |}.

(** Modelled from the spec: [fetch_branch_from]: both branches, tip first,
    down to (and without) the least common ancestor; the deeper side is
    walked until the numbers match, then both until the ids are equal. *)
Fixpoint fetch_branch (fuel : nat) (ix : gmap block_id_type item) (a b : item)
    : option (list item * list item) :=
  match fuel with
  | O => None
  | S n =>
      if item.id a =? item.id b then Some ([], [])
      else if item.num b <? item.num a then
        pa ← ix !! item.previous_id a;
        r ← fetch_branch n ix pa b;
        Some (a :: r.1, r.2)
      else if item.num a <? item.num b then
        pb ← ix !! item.previous_id b;
        r ← fetch_branch n ix a pb;
        Some (r.1, b :: r.2)
      else
        pa ← ix !! item.previous_id a;
        pb ← ix !! item.previous_id b;
        r ← fetch_branch n ix pa pb;
        Some (a :: r.1, b :: r.2)
  end.

Definition fetch_branch_from (f : fork_database) (first second : block_id_type)
    : option (list item * list item) :=
  a ← _index f !! first;
  b ← _index f !! second;
  fetch_branch (S (N.to_nat (item.num a) + N.to_nat (item.num b))) (_index f) a b.

(** [is_known_block]: in the fork database, or in the block log. *)
Definition is_known_block (c : chain_controller) (id : block_id_type) : bool :=
  bool_decide (is_Some (_index (_fork_db c) !! id))
  || existsb (λ b, block_id b =? id) (_block_log c).

(** ** Applying a block

    Modelled from the spec: the steps of [_apply_block], declared in the
    header and defined elsewhere. *)

Definition validate_block_header (b : signed_block) : M unit :=
  c ← gets id;
  let slot := get_slot_at_time c (signed_block.timestamp b) in
  check (signed_block.previous b =? head_block_id c) InvalidBlockHeader;;
  (skip ← skipping skip_producer_schedule_check;
   if skip : bool then mret ()
   else check (signed_block.producer b =? get_scheduled_producer c slot) WrongProducer);;
  (skip ← skipping skip_producer_signature;
   if skip : bool then mret ()
   else
     match producers (state (_db c)) !! signed_block.producer b with
     | Some p => check (signee_matches b (producer_object.signing_key p)) BadSignature
     | None => throw (chain_error BadSignature)
     end);;
  check ((head_block_time c <? signed_block.timestamp b)
         && (signed_block.timestamp b =? get_slot_time c slot)) BadTimestamp;;
  (skip ← skipping skip_merkle_check;
   if skip : bool then mret ()
   else check (merkle (signed_block.transactions b) =? signed_block.transaction_mroot b)
          MerkleMismatch).

Definition validate_checkpoint (b : signed_block) : M unit :=
  cp ← gets _checkpoints;
  match cp !! block_num b with
  | Some expected => check (block_id b =? expected) CheckpointMismatch
  | None => mret ()
  end.

Definition create_block_summary (b : signed_block) : M unit :=
  modify_state (λ o, set_block_summaries (<[block_num b := block_id b]> (block_summaries o)) o).

(** Head pointer, head time, current producer; the participation bitmap is
    shifted, the filled slot set, and the missed slots zero-filled, within a
    window of 128 slots. *)
Definition update_global_dynamic_data (b : signed_block) : M unit :=
  c ← gets id;
  let missed_blocks := get_slot_at_time c (signed_block.timestamp b) - 1 in
  modify_state (λ o,
    let d := dynamic_global_properties o in
    set_dynamic_global_properties
      {| dgpo.head_block_id := block_id b;
         dgpo.head_block_number := block_num b;
         dgpo.time := signed_block.timestamp b;
         dgpo.current_producer := signed_block.producer b;
         dgpo.last_irreversible_block_num := dgpo.last_irreversible_block_num d;
         dgpo.recent_slots_filled :=
           N.shiftl (N.shiftl (dgpo.recent_slots_filled d) 1 + 1) missed_blocks
             mod 2 ^ 128 |} o).

Definition set_last_produced (n : N) (p : producer_object) : producer_object :=
  {| producer_object.owner := producer_object.owner p;
     producer_object.signing_key := producer_object.signing_key p;
     producer_object.last_produced_block_num := n |}.

Definition update_signing_producer (b : signed_block) : M unit :=
  modify_state (λ o, set_producers
    (alter (set_last_produced (block_num b)) (signed_block.producer b) (producers o)) o).

Definition newest_first (a b : N) : Prop := b ≤ a.
#[global] Instance newest_first_dec : RelDecision newest_first := λ a b, decide (b ≤ a).

(** The number two thirds plus one of the active producers have reached:
    the confirmations sorted from the newest down, the [(2n/3 + 1)]-th. *)
Definition irreversible_candidate (o : objects) : option N :=
  let round := gpo.active_producers (global_properties o) in
  let confirmed :=
    (λ p, default 0 (producer_object.last_produced_block_num <$> producers o !! p)) <$> round in
  merge_sort newest_first confirmed !! (2 * length round / 3)%nat.

(** The blocks of the branch ending in [id] numbered in [(lo, hi]], oldest
    first. *)
Fixpoint branch_between (fuel : nat) (ix : gmap block_id_type item)
    (id : block_id_type) (lo hi : N) : list signed_block :=
  match fuel with
  | O => []
  | S n =>
      match ix !! id with
      | Some it =>
          if item.num it <=? lo then []
          else branch_between n ix (item.previous_id it) lo hi
               ++ (if item.num it <=? hi then [item.data it] else [])
      | None => []
      end
  end.

(** The last irreversible block stays in the tree as its root. *)
Definition fork_db_prune (lib : N) (f : fork_database) : fork_database :=
  {| _index := filter (λ kv, lib ≤ item.num kv.2) (_index f); _head := _head f |}.

Definition set_last_irreversible (n : N) (o : objects) : objects :=
  let d := dynamic_global_properties o in
  set_dynamic_global_properties
    {| dgpo.head_block_id := dgpo.head_block_id d;
       dgpo.head_block_number := dgpo.head_block_number d;
       dgpo.time := dgpo.time d;
       dgpo.current_producer := dgpo.current_producer d;
       dgpo.last_irreversible_block_num := n;
       dgpo.recent_slots_filled := dgpo.recent_slots_filled d |} o.

Definition update_last_irreversible_block : M unit :=
  c ← gets id;
  let o := state (_db c) in
  let old := last_irreversible_block_num c in
  match irreversible_candidate o with
  | Some new =>
      if old <? new then
        modify_state (set_last_irreversible new);;
        modify (λ c,
          set_block_log
            (_block_log c
             ++ branch_between (size (_index (_fork_db c))) (_index (_fork_db c))
                  (head_block_id c) old new)
            (set_fork_db (fork_db_prune new (_fork_db c)) c))
      else mret ()
  | None => mret ()
  end.

Definition clear_expired_transactions : M unit :=
  now ← gets head_block_time;
  modify_state (λ o, set_recent_transactions
    (filter (λ kv, now ≤ kv.2) (recent_transactions o)) o).

Definition update_producer_schedule : M unit :=
  seed ← gets head_block_id;
  modify_state (λ o,
    let g := global_properties o in
    set_global_properties
      {| gpo.active_producers := elect_producers (contract o) seed (gpo.active_producers g);
         gpo.max_block_size := gpo.max_block_size g;
         gpo.max_transaction_lifetime := gpo.max_transaction_lifetime g |} o).

Definition update_blockchain_configuration : M unit :=
  modify_state (λ o,
    let g := global_properties o in
    let m := median_configuration (contract o) (gpo.active_producers g) in
    set_global_properties
      {| gpo.active_producers := gpo.active_producers g;
         gpo.max_block_size := m.1;
         gpo.max_transaction_lifetime := m.2 |} o).

Definition _apply_block (b : signed_block) : M unit :=
  validate_checkpoint b;;
  validate_block_header b;;
  create_block_summary b;;
  update_global_dynamic_data b;;
  for_each (signed_block.transactions b)
    (λ trx, skip ← gets _skip_flags; apply_transaction trx skip);;
  update_signing_producer b;;
  update_last_irreversible_block;;
  clear_expired_transactions;;
  (if block_num b mod ProducerCount =? 0
   then update_producer_schedule;; update_blockchain_configuration
   else mret ()).

(** Modelled from the spec: the block session: it stays on the undo stack
    when the body returns, and is rolled back when it throws. *)
Definition with_block_session {A} (body : M A) : M A :=
  λ c,
    match body (set_db (start_undo_session (_db c)) c) with
    | (Returned a, c') => (Returned a, c')
    | (Thrown e, c') => (Thrown e, set_db (undo (_db c')) c')
    end.

(** Modelled from the spec: [apply_block], declared in the header and
    defined elsewhere. *)
Definition apply_block (b : signed_block) (skip : Z) : M unit :=
  with_skip_flags skip (with_block_session (_apply_block b)).

(** ** The controller's operations

    Modelled from the spec: [push_transaction], [clear_pending],
    [pop_block], [push_block] and [generate_block], declared in the header
    and defined elsewhere. *)

(** The pending session is opened on demand; the transaction runs in a
    session of its own, merged into the pending one, and joins the queue. *)
Definition _push_transaction (trx : SignedTransaction) : M unit :=
  s ← gets _pending_tx_session;
  (match s with
   | Some _ => mret ()
   | None => modify (λ c, set_pending_tx_session (Some Session)
                            (set_db (start_undo_session (_db c)) c))
   end);;
  (skip ← gets _skip_flags; apply_transaction trx skip);;
  modify (λ c, set_pending_transactions (_pending_transactions c ++ [trx]) c).

Definition push_transaction (trx : SignedTransaction) (skip : Z) : M unit :=
  with_skip_flags skip (_push_transaction trx).

Definition clear_pending : M unit :=
  modify (set_pending_transactions []);;
  reset_pending_tx_session.

(** The pending savepoint lies above the block session and is discarded
    first. The head block and its parent must be in the fork database, and a
    savepoint must be left to roll back. *)
Definition pop_block : M unit :=
  reset_pending_tx_session;;
  c ← gets id;
  let ix := _index (_fork_db c) in
  match ix !! head_block_id c with
  | Some h =>
      match ix !! item.previous_id h, undo_stack (_db c) with
      | Some p, _ :: _ =>
          modify (λ c, set_db (undo (_db c))
                         (set_fork_db (fork_db_set_head (Some (item.id p))
                                         (mark_popped (item.id h) (_fork_db c))) c))
      | _, _ => throw (chain_error IrreversibleViolation)
      end
  | None => throw (chain_error IrreversibleViolation)
  end.

(** A block that failed is marked invalid: it leaves the fork database with
    everything built on it, and the database's head is the chain's head
    again. *)
Definition mark_invalid (bad : block_id_type) (c : chain_controller) : chain_controller :=
  set_fork_db (fork_db_set_head (Some (head_block_id c))
                 (fork_db_remove bad (_fork_db c))) c.

(** The fast path: pending cleared, the block applied in its session,
    pending transactions submitted again. *)
Definition push_head_block (b : signed_block) : M unit :=
  without_pending_transactions push_transaction
    (λ c,
       match apply_block b (_skip_flags c) c with
       | (Returned _, c') =>
           (Returned (), set_fork_db (mark_applied (block_id b) (_fork_db c')) c')
       | (Thrown e, c') => (Thrown e, mark_invalid (block_id b) c')
       end).

(** The blocks of the new branch, oldest first; the first that fails is
    reported. *)
Fixpoint apply_branch (l : list item) : M (option item) :=
  match l with
  | [] => mret None
  | it :: l' =>
      λ c,
        match apply_block (item.data it) (_skip_flags c) c with
        | (Returned _, c') =>
            apply_branch l' (set_fork_db (mark_applied (item.id it) (_fork_db c')) c')
        | (Thrown e, c') => (Returned (Some it), c')
        end
  end.

(** The reorganisation: the old branch is popped down to the common
    ancestor and the new one applied. When a block of the new branch fails it
    is marked invalid and the controller is back on the original branch, as
    it was. *)
Definition switch_fork (new_head : item) : M unit :=
  without_pending_transactions push_transaction
    (λ c,
       match fetch_branch_from (_fork_db c) (head_block_id c) (item.id new_head) with
       | None => (Thrown (chain_error ReorgFailure), mark_invalid (item.id new_head) c)
       | Some (pop_list, push_list) =>
           match for_each pop_list (λ _, pop_block) c with
           | (Thrown e, _) => (Thrown e, mark_invalid (item.id new_head) c)
           | (Returned _, c1) =>
               match apply_branch (reverse push_list) c1 with
               | (Returned None, c2) => (Returned (), c2)
               | (Returned (Some bad), _) =>
                   (Thrown (chain_error ReorgFailure), mark_invalid (item.id bad) c)
               | (Thrown e, _) => (Thrown e, mark_invalid (item.id new_head) c)
               end
           end
       end).

Definition _push_block (b : signed_block) : M bool :=
  c ← gets id;
  if is_known_block c (block_id b) then mret false
  else
    match fork_db_add b (_fork_db c) with
    | None => throw (chain_error UnknownParent)
    | Some f =>
        modify (set_fork_db f);;
        match fork_head f with
        | Some new_head =>
            if item.previous_id new_head =? head_block_id c then
              push_head_block b;; mret false
            else if head_block_num c <? item.num new_head then
              switch_fork new_head;; mret true
            else mret false
        | None => mret false
        end
    end.

Definition push_block (b : signed_block) (skip : Z) : M bool :=
  with_skip_flags skip (_push_block b).

(** The pending transactions that apply, in order, within the size limit;
    one that fails is left out. *)
Fixpoint select_pending (l : list SignedTransaction) (size : N)
    : M (list SignedTransaction) :=
  match l with
  | [] => mret []
  | trx :: l' =>
      λ c,
        let size' := size + transaction_size trx in
        if negb (flag_set (_skip_flags c) skip_block_size_check)
           && (gpo.max_block_size (get_global_properties c) <? size')
        then select_pending l' size c
        else
          match apply_transaction trx (_skip_flags c) c with
          | (Returned _, c') =>
              match select_pending l' size' c' with
              | (Returned r, c'') => (Returned (trx :: r), c'')
              | (Thrown e, c'') => (Thrown e, c'')
              end
          | (Thrown _, c') => select_pending l' size c'
          end
  end.

Definition _generate_block (when : time_point_sec) (producer : AccountName)
    (block_signing_private_key : N) : M signed_block :=
  reset_pending_tx_session;;
  pending ← gets _pending_transactions;
  included ← (λ c,
    let r := select_pending pending 0 (set_db (start_undo_session (_db c)) c) in
    (r.1, set_db (undo (_db r.2)) r.2));
  parent ← gets head_block_id;
  let unsigned :=
    {| signed_block.previous := parent; signed_block.timestamp := when;
       signed_block.producer := producer;
       signed_block.transaction_mroot := merkle included;
       signed_block.producer_signature := 0;
       signed_block.transactions := included |} in
  let b :=
    {| signed_block.previous := parent; signed_block.timestamp := when;
       signed_block.producer := producer;
       signed_block.transaction_mroot := merkle included;
       signed_block.producer_signature := sign_block unsigned block_signing_private_key;
       signed_block.transactions := included |} in
  f ← gets _fork_db;
  match fork_db_add b f with
  | None => throw (chain_error UnknownParent)
  | Some f' => modify (set_fork_db f');; push_head_block b;; mret b
  end.

Definition generate_block (when : time_point_sec) (producer : AccountName)
    (block_signing_private_key : N) (skip : Z) : M signed_block :=
  with_skip_flags skip
    (with_producing (_generate_block when producer block_signing_private_key)).

(** ** Frames

    What an operation leaves untouched, as relations between the controller
    before and after. *)

(** Every member but the store, the fork database and the block log. *)
Definition ctl_frame (c c' : chain_controller) : Prop :=
  _pending_tx_session c' = _pending_tx_session c
  ∧ _pending_transactions c' = _pending_transactions c
  ∧ _producing c' = _producing c
  ∧ _pushing c' = _pushing c
  ∧ _skip_flags c' = _skip_flags c
  ∧ _checkpoints c' = _checkpoints c
  ∧ message_validate_handlers c' = message_validate_handlers c
  ∧ precondition_validate_handlers c' = precondition_validate_handlers c
  ∧ apply_handlers c' = apply_handlers c.

(** Everything but the current state of the store. *)
Definition same_but_state (c c' : chain_controller) : Prop :=
  ctl_frame c c'
  ∧ undo_stack (_db c') = undo_stack (_db c)
  ∧ _fork_db c' = _fork_db c
  ∧ _block_log c' = _block_log c.

(** Everything but the uniqueness index and the contract data. *)
Definition tx_frame (c c' : chain_controller) : Prop :=
  same_but_state c c'
  ∧ type_index (state (_db c')) = type_index (state (_db c))
  ∧ type_next_id (state (_db c')) = type_next_id (state (_db c))
  ∧ dynamic_global_properties (state (_db c')) = dynamic_global_properties (state (_db c))
  ∧ global_properties (state (_db c')) = global_properties (state (_db c))
  ∧ producers (state (_db c')) = producers (state (_db c))
  ∧ block_summaries (state (_db c')) = block_summaries (state (_db c)).

(** Everything but the type index and its id counter. *)
Definition type_frame (c c' : chain_controller) : Prop :=
  same_but_state c c'
  ∧ dynamic_global_properties (state (_db c')) = dynamic_global_properties (state (_db c))
  ∧ global_properties (state (_db c')) = global_properties (state (_db c))
  ∧ producers (state (_db c')) = producers (state (_db c))
  ∧ recent_transactions (state (_db c')) = recent_transactions (state (_db c))
  ∧ block_summaries (state (_db c')) = block_summaries (state (_db c))
  ∧ contract (state (_db c')) = contract (state (_db c)).

(** What applying a block leaves: the savepoints below, the fork
    database's head, and every member outside the store; the fork database
    may only lose blocks, and the last irreversible block number may only
    grow. *)
Definition block_frame (c c' : chain_controller) : Prop :=
  ctl_frame c c'
  ∧ undo_stack (_db c') = undo_stack (_db c)
  ∧ _head (_fork_db c') = _head (_fork_db c)
  ∧ _index (_fork_db c') ⊆ _index (_fork_db c)
  ∧ last_irreversible_block_num c ≤ last_irreversible_block_num c'.

(** The pending session, when open, was opened on a state with the global
    dynamic properties of the current one: pending transactions do not move
    the head. *)
Definition pending_consistent (c : chain_controller) : Prop :=
  match _pending_tx_session c with
  | Some _ => ∃ s st, undo_stack (_db c) = s :: st
                      ∧ dynamic_global_properties s
                        = dynamic_global_properties (state (_db c))
  | None => True
  end.

(** The head state: the controller with the pending session rolled back,
    the queue emptied and the skip flags cleared; what remains is the chain
    the pushed blocks have built. *)
Definition head_state (c : chain_controller) : chain_controller :=
  set_skip_flags 0 (set_pending_transactions [] (reset_pending_tx_session c).2).

(** Two instances on the same chain: the same head state under whatever
    each has pending. *)
Definition same_chain (c1 c2 : chain_controller) : Prop :=
  head_state c1 = head_state c2 ∧ pending_consistent c1 ∧ pending_consistent c2.

(** From [c] to [c']: the last irreversible block number has not decreased,
    and the pending layer of [c'] is consistent. *)
Definition irreversibility_kept (c c' : chain_controller) : Prop :=
  last_irreversible_block_num c ≤ last_irreversible_block_num c'
  ∧ pending_consistent c'.

(** Two runs of an operation agree: the same outcome, and controllers on
    the same chain with the same skip flags. *)
Definition agree {A} (r1 r2 : outcome A * chain_controller) : Prop :=
  r1.1 = r2.1 ∧ same_chain r1.2 r2.2 ∧ _skip_flags r1.2 = _skip_flags r2.2.

(** The controller after each block of a sequence, every block pushed with
    its own skip flags. *)
Fixpoint push_all (c : chain_controller) (blocks : list (signed_block * Z))
    : list chain_controller :=
  match blocks with
  | [] => []
  | (b, skip) :: l =>
      let c' := (push_block b skip c).2 in
      c' :: push_all c' l
  end.

(** ** The head among the validated blocks *)

(** An entry of the fork database's index sits under its id, and its id and
    number are those of its block. *)
Definition item_wf (k : block_id_type) (it : item) : Prop :=
  item.id it = k
  ∧ item.id it = block_id (item.data it)
  ∧ item.num it = block_num (item.data it).

Definition index_wf (ix : gmap block_id_type item) : Prop := map_Forall item_wf ix.

(** The head's number is the one its id carries. *)
Definition head_numbered (c : chain_controller) : Prop :=
  num_from_id (head_block_id c) = head_block_num c.

(** No validated block of the index has a number above [n]. *)
Definition validated_le (n : N) (ix : gmap block_id_type item) : Prop :=
  map_Forall (λ _ it, item.validated it = true → item.num it ≤ n) ix.

(** The head has the greatest number among the validated blocks. *)
Definition head_is_highest (c : chain_controller) : Prop :=
  validated_le (head_block_num c) (_index (_fork_db c)).

Definition head_inv (c : chain_controller) : Prop :=
  head_numbered c
  ∧ index_wf (_index (_fork_db c))
  ∧ head_is_highest c.

Definition chain_inv (c : chain_controller) : Prop :=
  pending_consistent c ∧ head_inv c.

(** From [c] to [c'] the index keeps its shape, and no block above a bound
    has become validated. *)
Definition index_kept (c c' : chain_controller) : Prop :=
  (index_wf (_index (_fork_db c)) → index_wf (_index (_fork_db c')))
  ∧ ∀ n, validated_le n (_index (_fork_db c)) → validated_le n (_index (_fork_db c')).

(** The head stays where it is. *)
Definition head_kept (c c' : chain_controller) : Prop :=
  head_block_id c' = head_block_id c ∧ head_block_num c' = head_block_num c.

(** An item that carries the id of its block. *)
Definition own_id (it : item) : Prop := item.id it = block_id (item.data it).

(** An operation keeps a relation between the state it is given and the
    state it leaves, returning or throwing. *)
Definition preserves {A} (R : relation chain_controller) (m : M A) : Prop :=
  ∀ c, R c (m c).2.

(** The branch [_push_block] takes. *)
Inductive push_path :=
  | known_block | unlinkable | fast_path | reorganisation | stored.

Definition push_block_path (c : chain_controller) (b : signed_block) : push_path :=
  if is_known_block c (block_id b) then known_block
  else
    match fork_db_add b (_fork_db c) with
    | None => unlinkable
    | Some f =>
        match fork_head f with
        | Some new_head =>
            if item.previous_id new_head =? head_block_id c then fast_path
            else if head_block_num c <? item.num new_head then reorganisation
            else stored
        | None => stored
        end
    end.

End Controller.

(** ** A sample chain

    Concrete collaborators and a genesis with three producers, on which the
    operations are run. *)

Module Sample.

#[export] Instance store : Store := {|
  contract_state := N;
  account_exists := λ _ _, true;
  authority_satisfied := λ _ _ _, true;
  elect_producers := λ _ _ round, round;
  median_configuration := λ _ _, (1000, 3600) |}.

#[export] Instance crypto : Crypto := {|
  block_digest := signed_block.producer_signature;
  transaction_digest := SignedTransaction.ref_block_prefix;
  merkle := λ l, N.of_nat (length l);
  signee_matches := λ b key, signed_block.producer_signature b mod 1000 =? key;
  decodable := λ _ _, true;
  id_prefix := λ id, N.land id (N.ones 32);
  sign_block := λ _ key, key;
  transaction_size := λ _, 1 |}.

#[export] Instance config : Config := {|
  BlockIntervalSeconds := 3; ProducerCount := 3; wildcard_contract := 0 |}.

Definition producer (n : N) : producer_object :=
  {| producer_object.owner := n; producer_object.signing_key := 100 + n;
     producer_object.last_produced_block_num := 0 |}.

Definition genesis_objects : objects :=
  {| type_index := []; type_next_id := 0;
     dynamic_global_properties :=
       {| dgpo.head_block_id := 0; dgpo.head_block_number := 0; dgpo.time := 0;
          dgpo.current_producer := 0; dgpo.last_irreversible_block_num := 0;
          dgpo.recent_slots_filled := 0 |};
     global_properties :=
       {| gpo.active_producers := [1; 2; 3]; gpo.max_block_size := 1000;
          gpo.max_transaction_lifetime := 3600 |};
     producers := list_to_map [(1, producer 1); (2, producer 2); (3, producer 3)];
     recent_transactions := ∅; block_summaries := ∅; contract := 0 |}.

Definition genesis : chain_controller :=
  {| _db := {| state := genesis_objects; undo_stack := [] |};
     _fork_db := {| _index := ∅; _head := None |};
     _block_log := []; _pending_tx_session := None; _pending_transactions := [];
     _producing := false; _pushing := false; _skip_flags := 0; _checkpoints := ∅;
     message_validate_handlers := ∅; precondition_validate_handlers := ∅;
     apply_handlers := ∅ |}.

(** An empty block; [salt] tells apart two blocks of one producer in one slot. *)
Definition block (prev : block_id_type) (t : time_point_sec) (p : AccountName)
    (salt : N) : signed_block :=
  {| signed_block.previous := prev; signed_block.timestamp := t;
     signed_block.producer := p; signed_block.transaction_mroot := 0;
     signed_block.producer_signature := salt * 1000 + 100 + p;
     signed_block.transactions := [] |}.

(** Four blocks in a row: the producers take turns, each leaving the slots
    before its own empty. *)
Definition b1 : signed_block := block 0 3 1 0.
Definition b2 : signed_block := block (block_id b1) 9 2 0.
Definition b3 : signed_block := block (block_id b2) 18 3 0.
Definition b4 : signed_block := block (block_id b3) 21 1 0.
(** A second block for the slot of [b2], with a greater id. *)
Definition b2' : signed_block := block (block_id b1) 9 2 1.

Definition push_blocks (bs : list signed_block) (c : chain_controller) : chain_controller :=
  foldl (λ c b, (push_block b (flag_value skip_nothing) c).2) c bs.

Definition tx1 : SignedTransaction :=
  {| SignedTransaction.ref_block_num := 1;
     SignedTransaction.ref_block_prefix := id_prefix (block_id b1);
     SignedTransaction.expiration := 100;
     SignedTransaction.messages := []; SignedTransaction.signatures := [] |}.

Definition Transfer : Struct :=
  {| Struct.name := "Transfer"; Struct.base := "";
     Struct.fields := [ {| Field.name := "from"; Field.type := "AccountName" |};
                        {| Field.name := "to"; Field.type := "AccountName" |};
                        {| Field.name := "amount"; Field.type := "UInt64" |} ] |}.

(** A fork off [b2], three blocks long, all by the first producer. *)
Definition f3 : signed_block := block (block_id b2) 12 1 2.
Definition f4 : signed_block := block (block_id f3) 15 1 2.
Definition f5 : signed_block := block (block_id f4) 18 1 2.

(** The chain after the four blocks. *)
Definition chain4 : chain_controller := push_blocks [b1; b2; b3; b4] genesis.

(** A contract at account 5 that counts: ["inc"] adds one to the contract
    data, ["boom"] passes validation and fails when applied. *)
Definition counter_type (n : TypeName) (i : N) : type_object :=
  {| type_object.id := i; type_object.scope := 5; type_object.name := n;
     type_object.base_scope := 0; type_object.base := "";
     type_object.fields := [] |}.

Definition counter_objects : objects :=
  set_type_index [counter_type "inc" 0; counter_type "boom" 1] 2 genesis_objects.

Definition counter_chain : chain_controller :=
  {| _db := {| state := counter_objects; undo_stack := [] |};
     _fork_db := {| _index := ∅; _head := None |};
     _block_log := []; _pending_tx_session := None; _pending_transactions := [];
     _producing := false; _pushing := false; _skip_flags := 0; _checkpoints := ∅;
     message_validate_handlers :=
       {[ 5 := {[ (5, "inc") := λ _, true; (5, "boom") := λ _, true ]} ]};
     precondition_validate_handlers :=
       {[ 5 := {[ (5, "inc") := λ _ _, true; (5, "boom") := λ _ _, true ]} ]};
     apply_handlers :=
       {[ 5 := {[ (5, "inc") := λ _ n, Some (n + 1); (5, "boom") := λ _ _, None ]} ]} |}.

Definition counter_message (action : TypeName) : Message :=
  {| Message.sender := 1; Message.recipient := 5; Message.scope := 5;
     Message.type := action; Message.payload := []; Message.authorization := [1] |}.

(** One transaction that counts and then fails. *)
Definition tx_boom : SignedTransaction :=
  {| SignedTransaction.ref_block_num := 0; SignedTransaction.ref_block_prefix := 0;
     SignedTransaction.expiration := 0;
     SignedTransaction.messages := [counter_message "inc"; counter_message "boom"];
     SignedTransaction.signatures := [] |}.


(** A second description under the name of [Transfer]. *)
Definition Transfer' : Struct :=
  {| Struct.name := "Transfer"; Struct.base := "Message"; Struct.fields := [] |}.

End Sample.

(** * Properties *)

Section ControllerFacts.
Context `{Store} `{Crypto} `{Config}.

(** ** The skip flags *)

Lemma land_pow2 (a n : Z) :
  (0 ≤ n)%Z → Z.land a (2 ^ n) = if Z.testbit a n then (2 ^ n)%Z else 0%Z.
Proof.
  intros Hn. apply Z.bits_inj'. intros m Hm.
  rewrite Z.land_spec, Z.pow2_bits_eqb by lia.
  destruct (Z.eqb_spec n m) as [->|Hne].
  - rewrite andb_true_r. destruct (Z.testbit a m) eqn:E.
    + by rewrite Z.pow2_bits_true.
    + by rewrite Z.bits_0.
  - rewrite andb_false_r. destruct (Z.testbit a n).
    + rewrite Z.pow2_bits_false; [done | lia].
    + by rewrite Z.bits_0.
Qed.

Lemma flag_set_testbit (flags bit : Z) (s : validation_steps) :
  (0 ≤ bit)%Z → flag_value s = (2 ^ bit)%Z → flag_set flags s = Z.testbit flags bit.
Proof.
  intros Hbit Hv. unfold flag_set. rewrite Hv, land_pow2 by done.
  destruct (Z.testbit flags bit); simpl.
  - apply negb_true_iff, Z.eqb_neq. pose proof (Z.pow_pos_nonneg 2 bit). lia.
  - done.
Qed.

Lemma should_check_tapos_bit (c : chain_controller) :
  should_check_tapos c = negb (Z.testbit (_skip_flags c) 5).
Proof. unfold should_check_tapos. by rewrite (flag_set_testbit _ 5). Qed.

Lemma should_check_for_duplicate_transactions_bit (c : chain_controller) :
  should_check_for_duplicate_transactions c = negb (Z.testbit (_skip_flags c) 2).
Proof. unfold should_check_for_duplicate_transactions. by rewrite (flag_set_testbit _ 2). Qed.

(** C7. The enumerators of [validation_steps] sit at the bit positions of
    the design document's table: each row's flag is [2 ^ bit] and is tested by
    that bit of the flag word; the table lists every enumerator but
    [skip_nothing] (which is 0) once; and with bit 5 (tapos_check) set, the
    TaPoS stage and the expiration stage both accept every transaction. *)
Theorem skip_flags_match_table :
  Forall (λ row, flag_value row.2 = (2 ^ row.1)%Z
                 ∧ ∀ flags, flag_set flags row.2 = Z.testbit flags row.1) skip_bit_table
  ∧ flag_value skip_nothing = 0%Z
  ∧ skip_nothing :: skip_bit_table.*2 = all_validation_steps
  ∧ skip_bit_table.*1 = seqZ 0 12
  ∧ (∀ s, s ∈ all_validation_steps)
  ∧ (∀ c, should_check_tapos c = negb (Z.testbit (_skip_flags c) 5))
  ∧ (∀ c trx, Z.testbit (_skip_flags c) 5 = true →
       validate_tapos trx c = (Returned (), c)
       ∧ validate_expiration trx c = (Returned (), c)).
Proof.
  split_and!.
  - unfold skip_bit_table.
    repeat (apply Forall_cons; split;
            [split; [done | intros flags; by apply flag_set_testbit] |]).
    apply Forall_nil_2.
  - done.
  - done.
  - done.
  - intros s. unfold all_validation_steps. destruct s; set_solver.
  - apply should_check_tapos_bit.
  - intros c trx Hbit.
    unfold validate_tapos, validate_expiration, mbind, M_bind, gets.
    rewrite should_check_tapos_bit, Hbit. done.
Qed.

(** ** The scoped modifiers *)

Lemma for_each_swallowing {A} (body : A → M unit) (l : list A) (c : chain_controller) :
  for_each l (λ t, try_catch_all (body t)) c
  = (Returned (), foldl (λ s t, (body t s).2) c l).
Proof.
  revert c. induction l as [|t l IH]; intros c; [done|].
  cbn [for_each foldl]. unfold mbind, M_bind, try_catch_all at 1. apply IH.
Qed.

(** C8. Whatever [f] does and however it leaves (its outcome is a returned
    value or a thrown exception), [with_skip_flags] ends with [_skip_flags],
    and [with_producing] with [_producing], at the value before the call;
    the outcome is the one [f] had, run with the flag word (the producing
    bit) set; everything else is as [f] left it. *)
Theorem scoped_flags_restored {A} (f : M A) (flags : Z) (c : chain_controller) :
  (let r := f (set_skip_flags flags c) in
   with_skip_flags flags f c = (r.1, set_skip_flags (_skip_flags c) r.2)
   ∧ _skip_flags (with_skip_flags flags f c).2 = _skip_flags c
   ∧ (with_skip_flags flags f c).1 = r.1)
  ∧ (let r := f (set_producing true c) in
     with_producing f c = (r.1, set_producing (_producing c) r.2)
     ∧ _producing (with_producing f c).2 = _producing c
     ∧ (with_producing f c).1 = r.1).
Proof.
  split; cbv zeta.
  - assert (with_skip_flags flags f c
            = ((f (set_skip_flags flags c)).1,
               set_skip_flags (_skip_flags c) (f (set_skip_flags flags c)).2)) as ->.
    { unfold with_skip_flags, scoped_exit, mbind, M_bind, gets, modify. simpl. done. }
    done.
  - assert (with_producing f c
            = ((f (set_producing true c)).1,
               set_producing (_producing c) (f (set_producing true c)).2)) as ->.
    { unfold with_producing, scoped_exit, mbind, M_bind, gets, modify. simpl. done. }
    done.
Qed.

Lemma without_pending_transactions_run {A}
    (push_transaction : SignedTransaction → Z → M unit) (f : M A) c :
  without_pending_transactions push_transaction f c
  = ((f (reset_pending_tx_session (set_pending_transactions [] c)).2).1,
     foldl (λ s t, (push_transaction t (flag_value skip_nothing) s).2)
       (f (reset_pending_tx_session (set_pending_transactions [] c)).2).2
       (_pending_transactions c)).
Proof.
  unfold without_pending_transactions, scoped_exit, mbind, M_bind, gets.
  unfold modify at 1. simpl.
  unfold reset_pending_tx_session, modify. simpl.
  by rewrite for_each_swallowing.
Qed.

(** C9. [without_pending_transactions f] runs [f] with the queue empty and
    no pending session; however [f] leaves, the outcome is [f]'s, and the
    transactions that were pending are then passed to [push_transaction] one
    after the other in queue order, each from the state the one before left,
    whether it returned or threw. *)
Theorem without_pending_resubmits {A} (push_transaction : SignedTransaction → Z → M unit)
    (f : M A) (c : chain_controller) :
  let c0 := (reset_pending_tx_session (set_pending_transactions [] c)).2 in
  let r := f c0 in
  _pending_transactions c0 = []
  ∧ _pending_tx_session c0 = None
  ∧ without_pending_transactions push_transaction f c
    = (r.1, foldl (λ s t, (push_transaction t (flag_value skip_nothing) s).2) r.2
              (_pending_transactions c)).
Proof.
  cbv zeta. split_and!.
  - unfold reset_pending_tx_session, modify. simpl.
    by destruct (_pending_tx_session c).
  - unfold reset_pending_tx_session, modify. simpl.
    destruct (_pending_tx_session c) eqn:E; by simpl.
  - apply without_pending_transactions_run.
Qed.

(** ** [register_type] *)

Lemma push_back_all (fs : list Field) (o : type_object) :
  let r := foldl (λ acc f, fields_push_back f acc) o fs in
  type_object.fields r = type_object.fields o ++ fs
  ∧ type_object.id r = type_object.id o
  ∧ type_object.scope r = type_object.scope o
  ∧ type_object.name r = type_object.name o
  ∧ type_object.base_scope r = type_object.base_scope o
  ∧ type_object.base r = type_object.base o.
Proof.
  revert o. induction fs as [|f fs IH]; intros o; cbn [foldl].
  - by rewrite app_nil_r.
  - destruct (IH (fields_push_back f o)) as (-> & -> & -> & -> & -> & ->).
    simpl. by rewrite <- app_assoc.
Qed.

Lemma find_type_new (key : AccountName * TypeName) (ix : list type_object) (v : type_object) :
  ¬ Exists (λ w, by_scope_name w = key) ix →
  by_scope_name v = key →
  find_type key (ix ++ [v]) = Some v.
Proof.
  intros Hfree Hv. unfold find_type.
  rewrite list_find_app_r.
  - simpl. by rewrite decide_True.
  - apply list_find_None, Forall_forall. intros w Hw Hk.
    apply Hfree, Exists_exists. eauto.
Qed.

(** C10. When [register_type] returns, the store holds a [type_object] that
    [get] finds under [(scope, name of the struct)]; its scope, name, base
    and fields are those given, and its [base_scope], which the constructor
    never assigns, is that of a default-constructed object. *)
Theorem register_type_registers (stru : Struct) (scope : AccountName)
    (c c' : chain_controller) :
  register_type stru scope c = (Returned (), c') →
  ∃ o, get_type_object (scope, Struct.name stru) c' = (Returned o, c')
       ∧ o ∈ type_index (state (_db c'))
       ∧ type_object.scope o = scope
       ∧ type_object.name o = Struct.name stru
       ∧ type_object.base o = Struct.base stru
       ∧ type_object.fields o = Struct.fields stru
       ∧ type_object.base_scope o = type_object.base_scope type_object_default.
Proof.
  unfold register_type, mbind, M_bind, create_type_object.
  set (v := register_type_constructor stru scope _).
  assert (type_object.fields v = Struct.fields stru
          ∧ type_object.scope v = scope
          ∧ type_object.name v = Struct.name stru
          ∧ type_object.base_scope v = type_object.base_scope type_object_default
          ∧ type_object.base v = Struct.base stru) as (Hf & Hs & Hn & Hbs & Hb).
  { unfold v, register_type_constructor.
    match goal with |- context [foldl ?g ?o ?l] =>
      destruct (push_back_all l o) as (-> & _ & -> & -> & -> & ->) end.
    done. }
  case_bool_decide as Hex; [done|].
  set (c1 := set_db _ c).
  assert (get_type_object (scope, Struct.name stru) c1 = (Returned v, c1)) as Hget.
  { unfold get_type_object, c1. simpl. rewrite find_type_new; [done| |].
    - intros Hdup. apply Hex. eapply Exists_impl; [exact Hdup|].
      intros w Hw. right. rewrite Hw. unfold by_scope_name. by rewrite Hs, Hn.
    - unfold by_scope_name. by rewrite Hs, Hn. }
  rewrite Hget. unfold mret, M_ret. intros [= <-].
  exists v. split_and!; try done.
  unfold c1. simpl. set_solver.
Qed.

(** ** Slot calculus *)

Lemma get_slot_time_positive (c : chain_controller) (n : N) :
  0 < n →
  get_slot_time c n = (head_block_time c / block_interval c + n) * block_interval c.
Proof.
  intros Hn. unfold get_slot_time.
  destruct (N.eqb_spec n 0); [lia|]. simpl. lia.
Qed.

(** C6. Slot 0 has the default time. For [N > 0] (and a block interval that
    is not zero) the time of slot [N] is interval-aligned, lies after the head
    block time, has exactly [N] slots between the head and itself, and is the
    first time from the head on with [N] slots elapsed. *)
Theorem get_slot_time_spec (c : chain_controller) (n : N) :
  0 < block_interval c →
  get_slot_time c 0 = 0
  ∧ (0 < n →
     head_block_time c ≤ get_slot_time c n
     ∧ head_block_time c < get_slot_time c n
     ∧ interval_aligned c (get_slot_time c n)
     ∧ slots_elapsed c (get_slot_time c n) = n
     ∧ ∀ t, head_block_time c ≤ t → slots_elapsed c t = n → get_slot_time c n ≤ t).
Proof.
  intros Hi. split; [done|]. intros Hn.
  rewrite get_slot_time_positive by done.
  set (i := block_interval c) in *. set (h := head_block_time c).
  assert (h < (h / i + n) * i) as Hlt.
  { pose proof (N.mod_upper_bound h i ltac:(lia)).
    pose proof (N.div_mod h i ltac:(lia)). nia. }
  split_and!.
  - lia.
  - done.
  - unfold interval_aligned. fold i. by apply N.Div0.mod_mul.
  - unfold slots_elapsed. fold i h. rewrite N.div_mul by lia. lia.
  - intros t Ht He. unfold slots_elapsed in He. fold i h in He.
    assert (t / i = h / i + n) as Hq by lia.
    rewrite <- Hq. pose proof (N.Div0.mul_div_le t i). lia.
Qed.

(** The slot at a time is the greatest slot whose time is not after it. *)
Lemma get_slot_at_time_greatest (c : chain_controller) (t : time_point_sec) :
  0 < block_interval c →
  get_slot_time c (get_slot_at_time c t) ≤ t
  ∧ ∀ n, get_slot_time c n ≤ t → n ≤ get_slot_at_time c t.
Proof.
  intros Hi. unfold get_slot_at_time.
  rewrite (get_slot_time_positive c 1) by lia.
  set (i := block_interval c) in *. set (q := head_block_time c / i).
  destruct (N.ltb_spec t ((q + 1) * i)) as [Hlt|Hge].
  - split; [unfold get_slot_time; simpl; lia|].
    intros n Hn. destruct (N.eq_dec n 0) as [->|Hn0]; [done|].
    rewrite get_slot_time_positive in Hn by lia. fold i q in Hn. nia.
  - pose proof (N.Div0.mul_div_le (t - (q + 1) * i) i) as Hk.
    set (k := (t - (q + 1) * i) / i) in *.
    split.
    + rewrite get_slot_time_positive by lia. fold i q. nia.
    + intros n Hn. destruct (N.eq_dec n 0) as [->|Hn0]; [lia|].
      rewrite get_slot_time_positive in Hn by lia. fold i q in Hn.
      assert (n - 1 ≤ k); [|lia].
      apply N.div_le_lower_bound; [lia|nia].
Qed.

(** C5. With a block interval that is not zero, the slot at the time of
    slot [N > 0] is [N], whatever the controller's state. *)
Theorem slot_round_trip (c : chain_controller) (n : N) :
  0 < block_interval c → 0 < n →
  get_slot_at_time c (get_slot_time c n) = n.
Proof.
  intros Hi Hn. unfold get_slot_at_time.
  rewrite (get_slot_time_positive c 1), (get_slot_time_positive c n) by lia.
  set (i := block_interval c) in *. set (q := head_block_time c / i).
  destruct (N.ltb_spec ((q + n) * i) ((q + 1) * i)) as [Hlt|Hge]; [nia|].
  replace ((q + n) * i - (q + 1) * i) with ((n - 1) * i) by nia.
  rewrite N.div_mul by lia. lia.
Qed.

(** ** Transactions *)

Lemma bind_run {A B} (m : M A) (k : A → M B) (c : chain_controller) :
  (m ≫= k) c = match m c with
               | (Returned a, c') => k a c'
               | (Thrown e, c') => (Thrown e, c')
               end.
Proof. done. Qed.

#[local] Instance ctl_frame_preorder : PreOrder ctl_frame.
Proof.
  split; [by intros c|].
  intros c1 c2 c3 H12 H23. unfold ctl_frame in *. intuition congruence.
Qed.

#[local] Instance same_but_state_preorder : PreOrder same_but_state.
Proof.
  split.
  - intros c. by repeat split.
  - intros c1 c2 c3 (F12 & ?) (F23 & ?).
    split; [by etrans|]. intuition congruence.
Qed.

#[local] Instance tx_frame_preorder : PreOrder tx_frame.
Proof.
  split.
  - intros c. by repeat split.
  - intros c1 c2 c3 (F12 & ?) (F23 & ?).
    split; [by etrans|]. intuition congruence.
Qed.

Lemma preserves_ret {A} R `{!Reflexive R} (a : A) : preserves R (mret a).
Proof. by intros c. Qed.

Lemma preserves_throw {A} R `{!Reflexive R} e : preserves R (throw (A:=A) e).
Proof. by intros c. Qed.

Lemma preserves_gets {A} R `{!Reflexive R} (f : chain_controller → A) : preserves R (gets f).
Proof. by intros c. Qed.

Lemma preserves_check R `{!Reflexive R} cond k : preserves R (check cond k).
Proof. intros c. unfold check. by destruct cond. Qed.

Lemma preserves_bind {A B} R `{!Transitive R} (m : M A) (k : A → M B) :
  preserves R m → (∀ a, preserves R (k a)) → preserves R (m ≫= k).
Proof.
  intros Hm Hk c. rewrite bind_run. specialize (Hm c).
  destruct (m c) as [[a|e] c1]; simpl in *; [|done].
  etrans; [done|]. apply Hk.
Qed.

Lemma preserves_for_each {A} R `{!PreOrder R} (l : list A) (body : A → M unit) :
  (∀ a, preserves R (body a)) → preserves R (for_each l body).
Proof.
  intros Hb. induction l as [|a l IH]; cbn [for_each].
  - apply preserves_ret, _.
  - apply preserves_bind; [apply _|done|done].
Qed.

Lemma preserves_require_handler {V} R `{!Reflexive R} (h : option V) :
  preserves R (require_handler h).
Proof. intros c. by destruct h. Qed.

Lemma preserves_modify_state R (f : objects → objects) :
  (∀ c, R c (set_db (set_state (f (state (_db c))) (_db c)) c)) →
  preserves R (modify_state f).
Proof. intros Hf c. apply Hf. Qed.

Ltac preserves_step :=
  lazymatch goal with
  | |- preserves _ (mbind _ _) => apply preserves_bind; [apply _| |intros ?]
  | |- preserves _ (mret _) => apply preserves_ret; apply _
  | |- preserves _ (throw _) => apply preserves_throw; apply _
  | |- preserves _ (gets _) => apply preserves_gets; apply _
  | |- preserves _ (get_state) => apply preserves_gets; apply _
  | |- preserves _ (skipping _) => apply preserves_gets; apply _
  | |- preserves _ (check _ _) => apply preserves_check; apply _
  | |- preserves _ (require_handler _) => apply preserves_require_handler; apply _
  | |- preserves _ (for_each _ _) => apply preserves_for_each; [apply _|intros ?]
  | |- preserves _ (if ?b then _ else _) => destruct b
  | |- preserves _ (match ?x with _ => _ end) => destruct x
  end.

Lemma validate_transaction_frame trx : preserves tx_frame (validate_transaction trx).
Proof.
  unfold validate_transaction, validate_expiration, validate_uniqueness,
    validate_tapos, validate_referenced_accounts, validate_message_types,
    validate_authority, validate_message, validate_message_precondition.
  repeat preserves_step.
Qed.

Lemma _apply_transaction_frame trx : preserves tx_frame (_apply_transaction trx).
Proof.
  unfold _apply_transaction.
  preserves_step; [apply validate_transaction_frame|].
  preserves_step.
  - apply preserves_modify_state. intros c0. by repeat split.
  - unfold apply_message. repeat preserves_step.
    apply preserves_modify_state. intros c0. by repeat split.
Qed.

(** Two controllers with the same members are the same controller. *)
Lemma controller_eq (c c' : chain_controller) :
  same_but_state c c' → state (_db c') = state (_db c) → c' = c.
Proof.
  intros ((?&?&?&?&?&?&?&?&?) & ? & ? & ?) ?.
  destruct c as [[] ???????????], c' as [[] ???????????]; simpl in *.
  by simplify_eq.
Qed.

Lemma with_skip_flags_run {A} (f : M A) flags c :
  with_skip_flags flags f c
  = ((f (set_skip_flags flags c)).1,
     set_skip_flags (_skip_flags c) (f (set_skip_flags flags c)).2).
Proof. done. Qed.

(** The session of a transaction: on return only the uniqueness index and
    the contract data have changed, on a throw nothing has. *)
Lemma with_transaction_session_frame trx c :
  match with_transaction_session (_apply_transaction trx) c with
  | (Returned _, c') => tx_frame c c'
  | (Thrown _, c') => c' = c
  end.
Proof.
  unfold with_transaction_session.
  pose proof (_apply_transaction_frame trx (set_db (start_undo_session (_db c)) c)) as Hf.
  destruct (_apply_transaction trx _) as [[[]|e] c1]; simpl in Hf.
  - destruct Hf as (((?&?&?&?&?&?&?&?&?) & Hst & ? & ?) & ? & ? & ? & ? & ? & ?).
    simpl in *. repeat split; simpl; try done. by rewrite Hst.
  - destruct Hf as (((?&?&?&?&?&?&?&?&?) & Hst & ? & ?) & ? & ? & ? & ? & ? & ?).
    simpl in *. apply controller_eq.
    + repeat split; simpl; try done. unfold undo. by rewrite Hst.
    + simpl. unfold undo. by rewrite Hst.
Qed.

Lemma apply_transaction_frame trx skip c :
  match apply_transaction trx skip c with
  | (Returned _, c') => tx_frame c c'
  | (Thrown _, c') => c' = c
  end.
Proof.
  unfold apply_transaction. rewrite with_skip_flags_run.
  pose proof (with_transaction_session_frame trx (set_skip_flags skip c)) as Hf.
  destruct (with_transaction_session _ _) as [[[]|e] c1]; simpl.
  - destruct Hf as (((?&?&?&?&?&?&?&?&?) & ? & ? & ?) & ? & ? & ? & ? & ? & ?).
    simpl in *. by repeat split.
  - subst c1. by destruct c.
Qed.

(** C2. A transaction whose application throws, at whatever stage, leaves
    the controller, and with it the store, as it was before the call. *)
Theorem apply_transaction_atomic (trx : SignedTransaction) (skip : Z)
    (c c' : chain_controller) (e : exception) :
  apply_transaction trx skip c = (Thrown e, c') →
  c' = c ∧ _db c' = _db c.
Proof.
  intros Hrun. pose proof (apply_transaction_frame trx skip c) as Hf.
  rewrite Hrun in Hf. by subst.
Qed.

(** ** The last irreversible block *)

Lemma apply_transaction_preserves trx skip : preserves tx_frame (apply_transaction trx skip).
Proof.
  intros c. pose proof (apply_transaction_frame trx skip c) as Hf.
  destruct (apply_transaction trx skip c) as [[[]|e] c']; simpl; [done|by subst].
Qed.

#[local] Instance block_frame_preorder : PreOrder block_frame.
Proof.
  split.
  - intros c. by repeat split.
  - intros c1 c2 c3 (F12 & ? & ? & ? & ?) (F23 & ? & ? & ? & ?).
    split; [by etrans|]. split_and!; [congruence|congruence|by etrans|by etrans].
Qed.

Lemma tx_frame_block_frame c c' : tx_frame c c' → block_frame c c'.
Proof.
  intros ((? & ? & Hf & ?) & ? & ? & Hd & ?).
  split_and!; try done.
  - by rewrite Hf.
  - by rewrite Hf.
  - unfold last_irreversible_block_num, get_dynamic_global_properties. by rewrite Hd.
Qed.

Lemma block_frame_modify_state (f : objects → objects) :
  (∀ o, dgpo.last_irreversible_block_num (dynamic_global_properties o)
        ≤ dgpo.last_irreversible_block_num (dynamic_global_properties (f o))) →
  preserves block_frame (modify_state f).
Proof. intros Hf c. split_and!; try done. apply Hf. Qed.

Lemma update_last_irreversible_block_frame :
  preserves block_frame update_last_irreversible_block.
Proof.
  intros c. unfold update_last_irreversible_block. rewrite bind_run. simpl.
  destruct (irreversible_candidate _) as [new|]; [|done].
  destruct (N.ltb_spec (last_irreversible_block_num c) new) as [Hlt|Hge]; [|done].
  simpl. split_and!; try done.
  - apply map_filter_subseteq.
  - unfold last_irreversible_block_num, get_dynamic_global_properties in *. simpl. lia.
Qed.

Lemma _apply_block_frame b : preserves block_frame (_apply_block b).
Proof.
  unfold _apply_block.
  preserves_step; [unfold validate_checkpoint; by repeat preserves_step|].
  preserves_step; [unfold validate_block_header; by repeat preserves_step|].
  preserves_step; [by apply block_frame_modify_state|].
  preserves_step.
  { unfold update_global_dynamic_data. repeat preserves_step.
    by apply block_frame_modify_state. }
  preserves_step.
  { repeat preserves_step. intros c0. apply tx_frame_block_frame.
    apply apply_transaction_preserves. }
  preserves_step; [by apply block_frame_modify_state|].
  preserves_step; [apply update_last_irreversible_block_frame|].
  preserves_step.
  { unfold clear_expired_transactions. repeat preserves_step.
    by apply block_frame_modify_state. }
  preserves_step; [|apply preserves_ret, _].
  preserves_step.
  - unfold update_producer_schedule. repeat preserves_step.
    by apply block_frame_modify_state.
  - by apply block_frame_modify_state.
Qed.

(** Applying a block: on return its savepoint lies on the stack and the
    last irreversible block number has not decreased; on a throw the store is
    as before. *)
Lemma apply_block_frame b skip c :
  ctl_frame c (apply_block b skip c).2
  ∧ _head (_fork_db (apply_block b skip c).2) = _head (_fork_db c)
  ∧ _index (_fork_db (apply_block b skip c).2) ⊆ _index (_fork_db c)
  ∧ match (apply_block b skip c).1 with
    | Returned _ =>
        undo_stack (_db (apply_block b skip c).2) = state (_db c) :: undo_stack (_db c)
        ∧ last_irreversible_block_num c
          ≤ last_irreversible_block_num (apply_block b skip c).2
    | Thrown _ => _db (apply_block b skip c).2 = _db c
    end.
Proof.
  unfold apply_block. rewrite with_skip_flags_run. unfold with_block_session.
  pose proof (_apply_block_frame b
    (set_db (start_undo_session (_db (set_skip_flags skip c))) (set_skip_flags skip c)))
    as Hf.
  destruct (_apply_block b _) as [[[]|e] c1]; simpl in *;
    destruct Hf as ((?&?&?&?&?&?&?&?&?) & Hst & ? & ? & Hlib); simpl in *.
  - by repeat split.
  - repeat split; try done. unfold undo. rewrite Hst. by destruct c as [[] ???????????].
Qed.

Lemma reset_pending_tx_session_lib c :
  pending_consistent c →
  get_dynamic_global_properties (reset_pending_tx_session c).2
  = get_dynamic_global_properties c.
Proof.
  unfold pending_consistent, reset_pending_tx_session, modify,
    get_dynamic_global_properties. simpl.
  destruct (_pending_tx_session c) as [?|]; [|done].
  intros (o & st & Hst & Hd). simpl. unfold undo. by rewrite Hst.
Qed.

(** ** The pending layer *)

Lemma head_state_set_skip_flags x c : head_state (set_skip_flags x c) = head_state c.
Proof. unfold head_state, reset_pending_tx_session, modify. simpl.
  by destruct (_pending_tx_session c). Qed.

Lemma head_state_set_pending_transactions q c :
  head_state (set_pending_transactions q c) = head_state c.
Proof. unfold head_state, reset_pending_tx_session, modify. simpl.
  by destruct (_pending_tx_session c). Qed.

Lemma head_state_set_producing x c :
  head_state (set_producing x c) = set_producing x (head_state c).
Proof. unfold head_state, reset_pending_tx_session, modify. simpl.
  by destruct (_pending_tx_session c). Qed.

Lemma head_state_set_fork_db f c :
  head_state (set_fork_db f c) = set_fork_db f (head_state c).
Proof. unfold head_state, reset_pending_tx_session, modify. simpl.
  by destruct (_pending_tx_session c). Qed.

Lemma head_state_dgp c :
  pending_consistent c →
  get_dynamic_global_properties (head_state c) = get_dynamic_global_properties c.
Proof. intros Hc. by rewrite <- (reset_pending_tx_session_lib c Hc). Qed.

Lemma pending_consistent_set_skip_flags x c :
  pending_consistent (set_skip_flags x c) ↔ pending_consistent c.
Proof. done. Qed.

(** The state in which [without_pending_transactions] runs its body. *)
Lemma cleared_pending_head_state c :
  (reset_pending_tx_session (set_pending_transactions [] c)).2
  = set_skip_flags (_skip_flags c) (head_state c).
Proof.
  unfold head_state, reset_pending_tx_session, modify. simpl.
  destruct (_pending_tx_session c); simpl; [done|]. by destruct c.
Qed.

Lemma head_state_tx_frame c c' :
  tx_frame c c' → pending_consistent c → is_Some (_pending_tx_session c) →
  head_state c' = head_state c ∧ pending_consistent c'.
Proof.
  intros (((Hs&?&?&?&?&?&?&?&?) & Hst & ? & ?) & ? & ? & Hd & ? & ? & ?) Hc [x Hx].
  unfold pending_consistent in *. rewrite Hs, Hx in *.
  destruct Hc as (o & st & Ho & Hdo). split.
  - unfold head_state, reset_pending_tx_session, modify. simpl.
    rewrite Hs, Hx. simpl. unfold undo. rewrite Hst, Ho.
    destruct c, c'; simpl in *. by simplify_eq.
  - exists o, st. split; congruence.
Qed.

Lemma gets_run {A} (f : chain_controller → A) c : gets f c = (Returned (f c), c).
Proof. done. Qed.

Lemma modify_run (f : chain_controller → chain_controller) c :
  modify f c = (Returned (), f c).
Proof. done. Qed.

Lemma _push_transaction_pending trx c :
  pending_consistent c →
  head_state (_push_transaction trx c).2 = head_state c
  ∧ pending_consistent (_push_transaction trx c).2
  ∧ _skip_flags (_push_transaction trx c).2 = _skip_flags c.
Proof.
  intros Hc. unfold _push_transaction. rewrite bind_run, gets_run. cbv beta iota.
  set (c1 := match _pending_tx_session c with
             | Some _ => c
             | None => set_pending_tx_session (Some Session)
                         (set_db (start_undo_session (_db c)) c)
             end).
  assert (head_state c1 = head_state c ∧ pending_consistent c1
          ∧ is_Some (_pending_tx_session c1) ∧ _skip_flags c1 = _skip_flags c)
    as (Hh1 & Hc1 & Hs1 & Hf1).
  { unfold c1. destruct (_pending_tx_session c) as [x|] eqn:Hx.
    - by split_and!.
    - split_and!; [|unfold pending_consistent; simpl; by eauto|by eexists|done].
      unfold head_state, reset_pending_tx_session, modify. simpl.
      rewrite Hx. unfold undo. simpl.
      destruct c as [[] ???????????]; simpl in *. by subst. }
  assert ((match _pending_tx_session c with
           | Some _ => mret ()
           | None => modify (λ c, set_pending_tx_session (Some Session)
                                    (set_db (start_undo_session (_db c)) c))
           end) c = (Returned (), c1)) as Hopen.
  { unfold c1. by destruct (_pending_tx_session c). }
  rewrite bind_run, Hopen. cbv beta iota.
  rewrite bind_run, (bind_run (gets _)), gets_run. cbv beta iota.
  pose proof (apply_transaction_frame trx (_skip_flags c1) c1) as Hf.
  destruct (apply_transaction trx (_skip_flags c1) c1) as [[[]|e] c2]; cbv beta iota.
  - destruct (head_state_tx_frame c1 c2 Hf Hc1 Hs1) as [Hh2 Hc2].
    rewrite modify_run. cbn [fst snd].
    rewrite head_state_set_pending_transactions. split_and!.
    + congruence.
    + done.
    + destruct Hf as (((?&?&?&?&?&?) & ?) & ?). simpl. congruence.
  - subst c2. by split_and!.
Qed.

Lemma push_transaction_pending trx skip c :
  pending_consistent c →
  head_state (push_transaction trx skip c).2 = head_state c
  ∧ pending_consistent (push_transaction trx skip c).2
  ∧ _skip_flags (push_transaction trx skip c).2 = _skip_flags c.
Proof.
  intros Hc. unfold push_transaction. rewrite with_skip_flags_run. simpl.
  destruct (_push_transaction_pending trx (set_skip_flags skip c)) as (Hh & Hp & Hf); [done|].
  rewrite head_state_set_skip_flags, Hh, head_state_set_skip_flags. by split_and!.
Qed.

(** Submitting pending transactions again leaves the head state alone. *)
Lemma resubmit_pending (l : list SignedTransaction) skip c :
  pending_consistent c →
  head_state (foldl (λ s t, (push_transaction t skip s).2) c l) = head_state c
  ∧ pending_consistent (foldl (λ s t, (push_transaction t skip s).2) c l)
  ∧ _skip_flags (foldl (λ s t, (push_transaction t skip s).2) c l) = _skip_flags c.
Proof.
  revert c. induction l as [|t l IH]; intros c Hc; [done|]. cbn [foldl].
  destruct (push_transaction_pending t skip c Hc) as (Hh & Hp & Hf).
  destruct (IH _ Hp) as (Hh' & Hp' & Hf'). split_and!; congruence.
Qed.

Lemma clear_pending_head_state c :
  head_state (clear_pending c).2 = head_state c
  ∧ pending_consistent (clear_pending c).2.
Proof.
  unfold clear_pending. rewrite bind_run, modify_run. cbv beta iota.
  unfold head_state, pending_consistent, reset_pending_tx_session.
  rewrite !modify_run. cbn [fst snd]. simpl.
  destruct (_pending_tx_session c) eqn:E; simpl; rewrite ?E; simpl; done.
Qed.

(** Under a consistent pending layer, the head is read off the head state. *)
Lemma same_head_state_dgp c c' :
  pending_consistent c → pending_consistent c' → head_state c' = head_state c →
  get_dynamic_global_properties c' = get_dynamic_global_properties c.
Proof.
  intros Hc Hc' Hh. by rewrite <- (head_state_dgp c), <- (head_state_dgp c'), Hh.
Qed.

(** ** The last irreversible block across the operations *)

Lemma cleared_pending_session c :
  _pending_tx_session (reset_pending_tx_session (set_pending_transactions [] c)).2 = None.
Proof.
  unfold reset_pending_tx_session. rewrite modify_run. simpl.
  destruct (_pending_tx_session c) eqn:E; by simpl.
Qed.

Lemma session_none_consistent c : _pending_tx_session c = None → pending_consistent c.
Proof. unfold pending_consistent. by intros ->. Qed.

(** A body run without pending transactions: when it never lowers the last
    irreversible block number nor opens a pending session, the whole scope,
    resubmissions included, does not lower the number either. *)
Lemma without_pending_lib {A} (f : M A) c :
  pending_consistent c →
  (∀ c0, _pending_tx_session c0 = None →
         _pending_tx_session (f c0).2 = None
         ∧ last_irreversible_block_num c0 ≤ last_irreversible_block_num (f c0).2) →
  last_irreversible_block_num c
  ≤ last_irreversible_block_num (without_pending_transactions push_transaction f c).2
  ∧ pending_consistent (without_pending_transactions push_transaction f c).2.
Proof.
  intros Hc Hf. rewrite without_pending_transactions_run. cbn [fst snd].
  set (c0 := (reset_pending_tx_session (set_pending_transactions [] c)).2).
  destruct (Hf c0 (cleared_pending_session c)) as [Hs Hl].
  destruct (resubmit_pending (_pending_transactions c) (flag_value skip_nothing) (f c0).2
              (session_none_consistent _ Hs)) as (Hh & Hp & _).
  split; [|done].
  unfold last_irreversible_block_num in *.
  rewrite (same_head_state_dgp (f c0).2 _ (session_none_consistent _ Hs) Hp Hh).
  etrans; [|exact Hl].
  unfold c0. rewrite cleared_pending_head_state.
  change (get_dynamic_global_properties (set_skip_flags (_skip_flags c) (head_state c)))
    with (get_dynamic_global_properties (head_state c)).
  by rewrite head_state_dgp.
Qed.

Lemma push_head_block_lib b c :
  pending_consistent c →
  last_irreversible_block_num c ≤ last_irreversible_block_num (push_head_block b c).2
  ∧ pending_consistent (push_head_block b c).2.
Proof.
  intros Hc. apply without_pending_lib; [done|]. intros c0 Hs0.
  pose proof (apply_block_frame b (_skip_flags c0) c0) as ((Hs&_) & _ & _ & Hr).
  destruct (apply_block b (_skip_flags c0) c0) as [[[]|e] c1]; simpl in *.
  - split; [congruence|]. apply Hr.
  - split; [congruence|].
    unfold last_irreversible_block_num, get_dynamic_global_properties. simpl. by rewrite Hr.
Qed.

Lemma select_pending_frame l : ∀ size c, tx_frame c (select_pending l size c).2.
Proof.
  induction l as [|trx l IH]; intros size c; cbn [select_pending]; [done|].
  destruct (_ && _); [apply IH|].
  pose proof (apply_transaction_preserves trx (_skip_flags c) c) as Hf.
  destruct (apply_transaction trx (_skip_flags c) c) as [[[]|e] c1]; simpl in Hf.
  - specialize (IH (size + transaction_size trx) c1).
    destruct (select_pending l _ c1) as [[r|e] c2]; simpl in *; by etrans.
  - etrans; [done|]. apply IH.
Qed.

(** The trial run of the pending transactions leaves no trace. *)
Lemma trial_run_undone l c :
  let r := select_pending l 0 (set_db (start_undo_session (_db c)) c) in
  set_db (undo (_db r.2)) r.2 = c.
Proof.
  cbv zeta.
  pose proof (select_pending_frame l 0 (set_db (start_undo_session (_db c)) c)) as Hf.
  destruct (select_pending l 0 _) as [o c1]; simpl in *.
  destruct Hf as (((?&?&?&?&?&?&?&?&?) & Hst & ? & ?) & _). simpl in *.
  apply controller_eq.
  - repeat split; simpl; try done. unfold undo. by rewrite Hst.
  - simpl. unfold undo. by rewrite Hst.
Qed.

Lemma irreversibility_kept_refl c : pending_consistent c → irreversibility_kept c c.
Proof. by split. Qed.

Lemma _generate_block_lib when producer key c :
  pending_consistent c →
  irreversibility_kept c (_generate_block when producer key c).2.
Proof.
  intros Hc. unfold _generate_block.
  rewrite bind_run. unfold reset_pending_tx_session. rewrite modify_run.
  cbv beta iota.
  set (c1 := match _pending_tx_session c with
             | Some _ => set_pending_tx_session None (set_db (undo (_db c)) c)
             | None => c
             end).
  assert (_pending_tx_session c1 = None ∧ last_irreversible_block_num c1
          = last_irreversible_block_num c) as [Hs1 Hl1].
  { pose proof (reset_pending_tx_session_lib c Hc) as Hd.
    unfold reset_pending_tx_session in Hd. rewrite modify_run in Hd.
    unfold last_irreversible_block_num. rewrite <- Hd. split; [|done].
    unfold c1. destruct (_pending_tx_session c) eqn:E; by simpl. }
  assert (irreversibility_kept c c1) as Hk1.
  { split; [by rewrite Hl1|by apply session_none_consistent]. }
  rewrite bind_run, gets_run. cbv beta iota.
  rewrite bind_run. rewrite (trial_run_undone (_pending_transactions c1) c1).
  destruct (select_pending _ 0 _).1 as [included|e]; cbn [fst snd]; [|done].
  rewrite bind_run, gets_run. cbv beta iota.
  rewrite bind_run, gets_run. cbv beta iota.
  destruct (fork_db_add _ (_fork_db c1)) as [f'|]; [|done].
  rewrite bind_run, modify_run. cbv beta iota. rewrite bind_run.
  match goal with |- context [push_head_block ?b ?d] =>
    destruct (push_head_block_lib b d) as [Hl Hp];
      [by apply session_none_consistent|];
    destruct (push_head_block b d) as [[[]|e] c2] end; cbn [fst snd] in *.
  - split; [|done]. etrans; [|exact Hl]. by rewrite <- Hl1.
  - split; [|done]. etrans; [|exact Hl]. by rewrite <- Hl1.
Qed.

Lemma generate_block_lib when producer key skip c :
  pending_consistent c →
  irreversibility_kept c (generate_block when producer key skip c).2.
Proof.
  intros Hc. unfold generate_block. rewrite with_skip_flags_run. cbn [fst snd].
  unfold with_producing, scoped_exit. rewrite bind_run, gets_run. cbv beta iota.
  cbn [fst snd]. rewrite bind_run, modify_run. cbv beta iota. rewrite modify_run.
  cbn [fst snd].
  apply (_generate_block_lib when producer key
           (set_producing true (set_skip_flags skip c))). done.
Qed.

Lemma _push_block_lib b c :
  pending_consistent c →
  push_block_path c b ≠ reorganisation →
  irreversibility_kept c (_push_block b c).2.
Proof.
  intros Hc Hpath.
  unfold _push_block. rewrite bind_run, gets_run. cbv beta iota delta [id].
  unfold push_block_path in Hpath.
  destruct (is_known_block c (block_id b)); [by split|].
  destruct (fork_db_add b (_fork_db c)) as [f|]; [|by split].
  rewrite bind_run, modify_run. cbv beta iota.
  destruct (fork_head f) as [new_head|]; [|by split].
  destruct (item.previous_id new_head =? head_block_id c).
  - rewrite bind_run.
    destruct (push_head_block_lib b (set_fork_db f c)) as [Hl Hp]; [done|].
    destruct (push_head_block b _) as [[[]|e] c2]; cbn [fst snd] in *; by split.
  - destruct (head_block_num c <? item.num new_head); [done|].
    by split.
Qed.

Lemma push_block_lib b skip c :
  pending_consistent c →
  push_block_path c b ≠ reorganisation →
  irreversibility_kept c (push_block b skip c).2.
Proof.
  intros Hc Hpath. unfold push_block. rewrite with_skip_flags_run. cbn [fst snd].
  exact (_push_block_lib b (set_skip_flags skip c) Hc Hpath).
Qed.

(** On the modelled operations, from a controller whose pending layer is
    consistent, [last_irreversible_block_num] does not decrease across
    [push_transaction], [clear_pending], [apply_block], [generate_block] and
    every [push_block] that does not reorganise; all but [apply_block] leave
    the pending layer consistent. *)
Lemma last_irreversible_monotone (c : chain_controller) :
  pending_consistent c →
  (∀ trx skip, irreversibility_kept c (push_transaction trx skip c).2)
  ∧ irreversibility_kept c (clear_pending c).2
  ∧ (∀ b skip, last_irreversible_block_num c
               ≤ last_irreversible_block_num (apply_block b skip c).2)
  ∧ (∀ when producer key skip,
       irreversibility_kept c (generate_block when producer key skip c).2)
  ∧ (∀ b skip, push_block_path c b ≠ reorganisation →
               irreversibility_kept c (push_block b skip c).2).
Proof.
  intros Hc. split_and!.
  - intros trx skip.
    destruct (push_transaction_pending trx skip c Hc) as (Hh & Hp & _).
    split; [|done]. unfold last_irreversible_block_num.
    by rewrite (same_head_state_dgp c _ Hc Hp Hh).
  - destruct (clear_pending_head_state c) as [Hh Hp].
    split; [|done]. unfold last_irreversible_block_num.
    by rewrite (same_head_state_dgp c _ Hc Hp Hh).
  - intros b skip.
    pose proof (apply_block_frame b skip c) as (_ & _ & _ & Hr).
    destruct (apply_block b skip c).1; [apply Hr|].
    unfold last_irreversible_block_num, get_dynamic_global_properties. by rewrite Hr.
  - intros. by apply generate_block_lib.
  - intros. by apply push_block_lib.
Qed.

(** ** Determinism *)

Lemma head_state_fork_db c : _fork_db (head_state c) = _fork_db c.
Proof. unfold head_state, reset_pending_tx_session. rewrite modify_run. simpl.
  by destruct (_pending_tx_session c). Qed.

Lemma head_state_block_log c : _block_log (head_state c) = _block_log c.
Proof. unfold head_state, reset_pending_tx_session. rewrite modify_run. simpl.
  by destruct (_pending_tx_session c). Qed.

Lemma same_chain_set_fork_db f c1 c2 :
  same_chain c1 c2 → same_chain (set_fork_db f c1) (set_fork_db f c2).
Proof.
  intros (Hh & Hp1 & Hp2). split_and!; [|done|done].
  by rewrite !head_state_set_fork_db, Hh.
Qed.

(** A scope without pending transactions run in two controllers on the same
    chain: the body starts from one and the same state, so the outcome is the
    same and the two end on the same chain again. *)
Lemma without_pending_same_chain {A} (f : M A) c1 c2 :
  same_chain c1 c2 → _skip_flags c1 = _skip_flags c2 →
  (∀ c0, _pending_tx_session c0 = None → _pending_tx_session (f c0).2 = None) →
  (without_pending_transactions push_transaction f c1).1
  = (without_pending_transactions push_transaction f c2).1
  ∧ same_chain (without_pending_transactions push_transaction f c1).2
               (without_pending_transactions push_transaction f c2).2
  ∧ _skip_flags (without_pending_transactions push_transaction f c1).2
    = _skip_flags (without_pending_transactions push_transaction f c2).2.
Proof.
  intros (Hh & Hc1 & Hc2) Hfl Hf. rewrite !without_pending_transactions_run. cbn [fst snd].
  assert ((reset_pending_tx_session (set_pending_transactions [] c2)).2
          = (reset_pending_tx_session (set_pending_transactions [] c1)).2) as ->.
  { by rewrite !cleared_pending_head_state, Hh, Hfl. }
  set (c0 := (reset_pending_tx_session (set_pending_transactions [] c1)).2).
  pose proof (Hf c0 (cleared_pending_session c1)) as Hs.
  apply session_none_consistent in Hs.
  destruct (resubmit_pending (_pending_transactions c1) (flag_value skip_nothing) _ Hs)
    as (Hh1 & Hp1 & Hf1).
  destruct (resubmit_pending (_pending_transactions c2) (flag_value skip_nothing) _ Hs)
    as (Hh2 & Hp2 & Hf2).
  split_and!; [done| |congruence]. split_and!; [congruence|done|done].
Qed.

Lemma pop_block_session c : _pending_tx_session (pop_block c).2 = None.
Proof.
  unfold pop_block. rewrite bind_run. unfold reset_pending_tx_session at 1.
  rewrite modify_run. cbv beta iota.
  set (c1 := match _pending_tx_session c with
             | Some _ => set_pending_tx_session None (set_db (undo (_db c)) c)
             | None => c
             end).
  assert (_pending_tx_session c1 = None) as Hs1.
  { unfold c1. destruct (_pending_tx_session c) eqn:E; by simpl. }
  rewrite bind_run, gets_run. cbv beta iota delta [id].
  destruct (_index (_fork_db c1) !! head_block_id c1) as [h|]; [|done].
  destruct (_index (_fork_db c1) !! item.previous_id h) as [p|]; [|done].
  by destruct (undo_stack (_db c1)).
Qed.

Lemma pop_blocks_session {A} (l : list A) c :
  _pending_tx_session c = None →
  _pending_tx_session (for_each l (λ _, pop_block) c).2 = None.
Proof.
  revert c. induction l as [|a l IH]; intros c Hc; cbn [for_each]; [done|].
  rewrite bind_run. pose proof (pop_block_session c) as Hp.
  destruct (pop_block c) as [[[]|e] c1]; cbn [fst snd] in *; [by apply IH|done].
Qed.

Lemma apply_block_session b skip c :
  _pending_tx_session (apply_block b skip c).2 = _pending_tx_session c.
Proof. by pose proof (apply_block_frame b skip c) as ((? & _) & _). Qed.

Lemma apply_branch_session l : ∀ c,
  _pending_tx_session (apply_branch l c).2 = _pending_tx_session c.
Proof.
  induction l as [|it l IH]; intros c; cbn [apply_branch]; [done|].
  pose proof (apply_block_session (item.data it) (_skip_flags c) c) as Hs.
  destruct (apply_block (item.data it) (_skip_flags c) c) as [[[]|e] c1];
    cbn [fst snd] in *; [|done].
  by rewrite IH.
Qed.

Lemma push_head_body_session b c0 :
  _pending_tx_session
    (match apply_block b (_skip_flags c0) c0 with
     | (Returned _, c') =>
         (Returned (), set_fork_db (mark_applied (block_id b) (_fork_db c')) c')
     | (Thrown e, c') => (Thrown e, mark_invalid (block_id b) c')
     end).2 = _pending_tx_session c0.
Proof.
  pose proof (apply_block_session b (_skip_flags c0) c0) as Hs.
  by destruct (apply_block b (_skip_flags c0) c0) as [[[]|e] c1].
Qed.

Lemma switch_fork_body_session new_head c0 :
  _pending_tx_session c0 = None →
  _pending_tx_session
    (match fetch_branch_from (_fork_db c0) (head_block_id c0) (item.id new_head) with
     | None => (Thrown (chain_error ReorgFailure), mark_invalid (item.id new_head) c0)
     | Some (pop_list, push_list) =>
         match for_each pop_list (λ _, pop_block) c0 with
         | (Thrown e, _) => (Thrown e, mark_invalid (item.id new_head) c0)
         | (Returned _, c1) =>
             match apply_branch (reverse push_list) c1 with
             | (Returned None, c2) => (Returned (), c2)
             | (Returned (Some bad), _) =>
                 (Thrown (chain_error ReorgFailure), mark_invalid (item.id bad) c0)
             | (Thrown e, _) => (Thrown e, mark_invalid (item.id new_head) c0)
             end
         end
     end).2 = None.
Proof.
  intros Hs0.
  destruct (fetch_branch_from _ _ _) as [[pop_list push_list]|]; [|done].
  pose proof (pop_blocks_session pop_list c0 Hs0) as Hp.
  destruct (for_each pop_list _ c0) as [[[]|e] c1]; cbn [fst snd] in *; [|done].
  pose proof (apply_branch_session (reverse push_list) c1) as Hb.
  destruct (apply_branch (reverse push_list) c1) as [[[bad|]|e] c2];
    cbn [fst snd] in *; [done|congruence|done].
Qed.

Lemma agree_bind {A B} (m : M A) (k : A → M B) c1 c2 :
  agree (m c1) (m c2) →
  (∀ a d1 d2, same_chain d1 d2 → _skip_flags d1 = _skip_flags d2 →
              agree (k a d1) (k a d2)) →
  agree ((m ≫= k) c1) ((m ≫= k) c2).
Proof.
  intros (Ho & Hs & Hf) Hk. rewrite !bind_run.
  destruct (m c1) as [o1 d1], (m c2) as [o2 d2]; cbn [fst snd] in *. subst o2.
  destruct o1 as [a|e]; [by apply Hk|by split; [|split]].
Qed.

Lemma agree_ret {A} (a : A) c1 c2 :
  same_chain c1 c2 → _skip_flags c1 = _skip_flags c2 →
  agree ((mret a : M A) c1) ((mret a : M A) c2).
Proof. intros ??. by split; [|split]. Qed.

Lemma _push_block_agree b c1 c2 :
  same_chain c1 c2 → _skip_flags c1 = _skip_flags c2 →
  agree (_push_block b c1) (_push_block b c2).
Proof.
  intros Hsc Hfl. pose proof Hsc as (Hh & Hp1 & Hp2).
  assert (_fork_db c1 = _fork_db c2) as Hfdb
    by by rewrite <- (head_state_fork_db c1), Hh, head_state_fork_db.
  assert (_block_log c1 = _block_log c2) as Hlog
    by by rewrite <- (head_state_block_log c1), Hh, head_state_block_log.
  pose proof (same_head_state_dgp c2 c1 Hp2 Hp1 Hh) as Hd.
  assert (head_block_id c1 = head_block_id c2) as Hid
    by by unfold head_block_id; rewrite Hd.
  assert (head_block_num c1 = head_block_num c2) as Hnum
    by by unfold head_block_num; rewrite Hd.
  unfold _push_block. rewrite !bind_run, !gets_run. cbv beta iota delta [id].
  unfold is_known_block. rewrite Hfdb, Hlog, Hid, Hnum.
  destruct (_ || _); [by apply agree_ret|].
  destruct (fork_db_add b (_fork_db c2)) as [f|]; [|by split; [|split]].
  apply agree_bind.
  { rewrite !modify_run. split; [done|split; [|done]]. by apply same_chain_set_fork_db. }
  intros [] d1 d2 Hd12 Hf12.
  destruct (fork_head f) as [new_head|]; [|by apply agree_ret].
  destruct (item.previous_id new_head =? head_block_id c2).
  - apply agree_bind; [|intros; by apply agree_ret].
    unfold push_head_block. apply without_pending_same_chain; [done|done|].
    intros c0 Hs0. by rewrite push_head_body_session.
  - destruct (head_block_num c2 <? item.num new_head); [|by apply agree_ret].
    apply agree_bind; [|intros; by apply agree_ret].
    unfold switch_fork. apply without_pending_same_chain; [done|done|].
    intros c0 Hs0. by apply switch_fork_body_session.
Qed.

Lemma push_block_agree b skip c1 c2 :
  same_chain c1 c2 →
  (push_block b skip c1).1 = (push_block b skip c2).1
  ∧ same_chain (push_block b skip c1).2 (push_block b skip c2).2.
Proof.
  intros (Hh & Hp1 & Hp2). unfold push_block. rewrite !with_skip_flags_run. cbn [fst snd].
  destruct (_push_block_agree b (set_skip_flags skip c1) (set_skip_flags skip c2))
    as (Ho & (Hh' & Hp1' & Hp2') & _).
  { split_and!; [|done|done]. by rewrite !head_state_set_skip_flags. }
  { done. }
  split; [done|]. split_and!; [|done|done].
  by rewrite !head_state_set_skip_flags.
Qed.

(** C1. Two controllers on the same chain (two instances at one genesis, for
    one) that are fed the same blocks, each with the same skip flags, have
    the same head state after every block, whatever transactions each of
    them has pending. *)
Theorem same_blocks_same_head_state (c1 c2 : chain_controller)
    (blocks : list (signed_block * Z)) :
  same_chain c1 c2 →
  Forall2 (λ s1 s2, head_state s1 = head_state s2)
    (push_all c1 blocks) (push_all c2 blocks).
Proof.
  revert c1 c2. induction blocks as [|[b skip] l IH]; intros c1 c2 Hsc; cbn [push_all].
  - constructor.
  - destruct (push_block_agree b skip c1 c2 Hsc) as (_ & Hsc').
    constructor; [by destruct Hsc'|by apply IH].
Qed.

(** ** The head among the validated blocks *)

Lemma num_from_block_id b : num_from_id (block_id b) = block_num b.
Proof.
  unfold num_from_id, block_id.
  rewrite N.shiftr_lor, N.shiftr_shiftl_r, N.sub_diag, N.shiftr_0_r by done.
  rewrite N.shiftr_land.
  replace (N.shiftr (N.ones 224) 224) with 0 by done.
  by rewrite N.land_0_r, N.lor_0_r.
Qed.

#[local] Instance head_kept_preorder : PreOrder head_kept.
Proof.
  split; [by intros c|].
  intros c1 c2 c3 [] []. split; congruence.
Qed.

Lemma tx_frame_head_kept c c' : tx_frame c c' → head_kept c c'.
Proof.
  intros (_ & _ & _ & Hd & _).
  unfold head_kept, head_block_id, head_block_num, get_dynamic_global_properties.
  by rewrite Hd.
Qed.

Lemma head_kept_modify_state (f : objects → objects) :
  (∀ o, dgpo.head_block_id (dynamic_global_properties (f o))
        = dgpo.head_block_id (dynamic_global_properties o)
        ∧ dgpo.head_block_number (dynamic_global_properties (f o))
          = dgpo.head_block_number (dynamic_global_properties o)) →
  preserves head_kept (modify_state f).
Proof. intros Hf c. apply Hf. Qed.

Lemma validate_checkpoint_pure b c : (validate_checkpoint b c).2 = c.
Proof.
  unfold validate_checkpoint. rewrite bind_run, gets_run. cbv beta iota.
  destruct (_ !! _); [|done]. unfold check. by destruct (_ =? _).
Qed.

Lemma preserves_eq_pure {A} (m : M A) : preserves eq m → ∀ c, (m c).2 = c.
Proof. intros Hm c. symmetry. apply Hm. Qed.

Lemma validate_block_header_pure b c : (validate_block_header b c).2 = c.
Proof.
  apply preserves_eq_pure. unfold validate_block_header. by repeat preserves_step.
Qed.

Lemma validate_block_header_parent b c :
  (validate_block_header b c).1 = Returned () →
  signed_block.previous b = head_block_id c.
Proof.
  unfold validate_block_header. rewrite bind_run, gets_run. cbv beta iota delta [id].
  rewrite bind_run. unfold check at 1.
  destruct (N.eqb_spec (signed_block.previous b) (head_block_id c)); done.
Qed.

(** What follows the head update in [_apply_block] keeps the head. *)
Lemma after_head_update_kept (b : signed_block) :
  preserves head_kept
    (for_each (signed_block.transactions b)
       (λ trx, skip ← gets _skip_flags; apply_transaction trx skip);;
     update_signing_producer b;;
     update_last_irreversible_block;;
     clear_expired_transactions;;
     (if block_num b mod ProducerCount =? 0
      then update_producer_schedule;; update_blockchain_configuration
      else mret ())).
Proof.
  preserves_step.
  { repeat preserves_step. intros c0. apply tx_frame_head_kept.
    apply apply_transaction_preserves. }
  preserves_step; [by apply head_kept_modify_state|].
  preserves_step.
  { intros c. unfold update_last_irreversible_block.
    rewrite bind_run, gets_run. cbv beta iota delta [id].
    destruct (irreversible_candidate _); [|done].
    by destruct (_ <? _). }
  preserves_step.
  { unfold clear_expired_transactions. repeat preserves_step.
    by apply head_kept_modify_state. }
  preserves_step; [|apply preserves_ret, _].
  preserves_step.
  - unfold update_producer_schedule. repeat preserves_step.
    by apply head_kept_modify_state.
  - by apply head_kept_modify_state.
Qed.

(** A block that applies was built on the head, and is the head afterwards. *)
Lemma _apply_block_head b c c' :
  _apply_block b c = (Returned (), c') →
  signed_block.previous b = head_block_id c
  ∧ head_block_id c' = block_id b
  ∧ head_block_num c' = block_num b.
Proof.
  unfold _apply_block. rewrite bind_run.
  pose proof (validate_checkpoint_pure b c) as Hcp.
  destruct (validate_checkpoint b c) as [[[]|e] c1]; cbn [snd] in Hcp; [subst c1|done].
  rewrite bind_run.
  pose proof (validate_block_header_pure b c) as Hvp.
  pose proof (validate_block_header_parent b c) as Hpar.
  destruct (validate_block_header b c) as [[[]|e] c1]; cbn [fst snd] in *; [subst c1|done].
  rewrite bind_run. unfold create_block_summary at 1, modify_state at 1.
  rewrite modify_run. cbv beta iota.
  rewrite bind_run. unfold update_global_dynamic_data at 1.
  rewrite bind_run, gets_run. cbv beta iota delta [id].
  unfold modify_state at 1. rewrite modify_run. cbv beta iota.
  match goal with |- ?m ?c3 = _ → _ =>
    pose proof (after_head_update_kept b c3) as [Hid Hnum] end.
  intros Hrun. rewrite Hrun in Hid, Hnum. cbn [snd] in Hid, Hnum.
  split; [by apply Hpar|]. by rewrite Hid, Hnum.
Qed.

Lemma apply_block_head b skip c c' :
  apply_block b skip c = (Returned (), c') →
  signed_block.previous b = head_block_id c
  ∧ head_block_id c' = block_id b
  ∧ head_block_num c' = block_num b.
Proof.
  unfold apply_block. rewrite with_skip_flags_run. unfold with_block_session.
  destruct (_apply_block b _) as [[[]|e] c1] eqn:Hrun; cbn [fst snd]; [|done].
  intros [= <-]. apply _apply_block_head in Hrun. exact Hrun.
Qed.

Lemma item_wf_num k it : item_wf k it → item.num it = num_from_id k.
Proof. intros (<- & Hid & ->). by rewrite Hid, num_from_block_id. Qed.

Lemma index_wf_lookup ix k it : index_wf ix → ix !! k = Some it → item_wf k it.
Proof. intros Hwf Hk. exact (map_Forall_lookup_1 _ _ _ _ Hwf Hk). Qed.

Lemma validated_le_lookup n ix k it :
  validated_le n ix → ix !! k = Some it → item.validated it = true → item.num it ≤ n.
Proof. intros Hle Hk. exact (map_Forall_lookup_1 _ _ _ _ Hle Hk). Qed.

Lemma index_wf_subseteq ix ix' : ix' ⊆ ix → index_wf ix → index_wf ix'.
Proof.
  intros Hsub Hwf. apply map_Forall_lookup. intros k it Hk.
  eapply index_wf_lookup; [done|]. by eapply lookup_weaken.
Qed.

Lemma validated_le_subseteq n ix ix' : ix' ⊆ ix → validated_le n ix → validated_le n ix'.
Proof.
  intros Hsub Hle. apply map_Forall_lookup. intros k it Hk.
  eapply validated_le_lookup; [done|]. by eapply lookup_weaken.
Qed.

Lemma validated_le_mono n m ix : n ≤ m → validated_le n ix → validated_le m ix.
Proof.
  intros Hnm Hle. apply map_Forall_lookup. intros k it Hk Hv.
  pose proof (validated_le_lookup _ _ _ _ Hle Hk Hv). lia.
Qed.

Lemma index_wf_alter (g : item → item) id ix :
  (∀ it, item.id (g it) = item.id it ∧ item.data (g it) = item.data it
         ∧ item.num (g it) = item.num it) →
  index_wf ix → index_wf (alter g id ix).
Proof.
  intros Hg Hwf. apply map_Forall_lookup. intros k it Hk.
  apply lookup_alter_Some in Hk as [(<- & it0 & Hit0 & ->)|[_ Hk]].
  - destruct (Hg it0) as (Hi & Hd & Hn).
    destruct (index_wf_lookup _ _ _ Hwf Hit0) as (? & ? & ?).
    split_and!; congruence.
  - by eapply index_wf_lookup.
Qed.

Lemma validated_le_mark_popped n id ix :
  validated_le n ix →
  validated_le n (alter (λ it, set_item_flags (item.validated it) false it) id ix).
Proof.
  intros Hle. apply map_Forall_lookup. intros k it Hk.
  apply lookup_alter_Some in Hk as [(<- & it0 & Hit0 & ->)|[_ Hk]].
  - simpl. by eapply validated_le_lookup.
  - by eapply validated_le_lookup.
Qed.

Lemma validated_le_mark_applied n id ix :
  index_wf ix → num_from_id id ≤ n →
  validated_le n ix → validated_le n (alter (set_item_flags true true) id ix).
Proof.
  intros Hwf Hid Hle. apply map_Forall_lookup. intros k it Hk.
  apply lookup_alter_Some in Hk as [(<- & it0 & Hit0 & ->)|[_ Hk]].
  - simpl. intros _. by rewrite (item_wf_num id it0) by by eapply index_wf_lookup.
  - by eapply validated_le_lookup.
Qed.

Lemma fork_db_add_index b f f' :
  fork_db_add b f = Some f' →
  _index f' = <[block_id b := make_item b]> (_index f).
Proof.
  unfold fork_db_add. destruct (fork_head f) as [h|].
  - destruct (_index f !! signed_block.previous b) as [p|]; [|intros Heq; discriminate Heq].
    intros Heq. apply (inj Some) in Heq. by rewrite <- Heq.
  - intros Heq. apply (inj Some) in Heq. by rewrite <- Heq.
Qed.

Lemma index_wf_add b f f' :
  fork_db_add b f = Some f' → index_wf (_index f) → index_wf (_index f').
Proof.
  intros Hadd Hwf. rewrite (fork_db_add_index _ _ _ Hadd).
  by apply map_Forall_insert_2.
Qed.

Lemma validated_le_add n b f f' :
  fork_db_add b f = Some f' → validated_le n (_index f) → validated_le n (_index f').
Proof.
  intros Hadd Hle. rewrite (fork_db_add_index _ _ _ Hadd).
  by apply map_Forall_insert_2.
Qed.

#[local] Instance index_kept_preorder : PreOrder index_kept.
Proof.
  split; [by intros c|].
  intros c1 c2 c3 [H12 H12'] [H23 H23']. split; [tauto|]. intros n ?. by apply H23', H12'.
Qed.

Lemma index_kept_subseteq c c' :
  _index (_fork_db c') ⊆ _index (_fork_db c) → index_kept c c'.
Proof.
  intros Hsub. split.
  - by apply index_wf_subseteq.
  - intros n. by apply validated_le_subseteq.
Qed.

Lemma fork_db_remove_subseteq id f : _index (fork_db_remove id f) ⊆ _index f.
Proof. apply map_filter_subseteq. Qed.

Lemma mark_invalid_kept bad c : index_kept c (mark_invalid bad c).
Proof. apply index_kept_subseteq, fork_db_remove_subseteq. Qed.

Lemma pop_block_kept c : index_kept c (pop_block c).2.
Proof.
  unfold pop_block. rewrite bind_run. unfold reset_pending_tx_session at 1.
  rewrite modify_run. cbv beta iota.
  set (c1 := match _pending_tx_session c with
             | Some _ => set_pending_tx_session None (set_db (undo (_db c)) c)
             | None => c
             end).
  assert (_fork_db c1 = _fork_db c) as Hf.
  { unfold c1. by destruct (_pending_tx_session c). }
  rewrite bind_run, gets_run. cbv beta iota delta [id]. unfold index_kept. rewrite <- Hf.
  destruct (_index (_fork_db c1) !! head_block_id c1) as [h|]; [|done].
  destruct (_index (_fork_db c1) !! item.previous_id h) as [p|]; [|done].
  destruct (undo_stack (_db c1)); [done|]. rewrite modify_run. cbn [snd]. simpl. split.
  - by apply index_wf_alter.
  - intros n. apply validated_le_mark_popped.
Qed.

Lemma pop_blocks_kept {A} (l : list A) c : index_kept c (for_each l (λ _, pop_block) c).2.
Proof.
  apply (preserves_for_each index_kept). intros _ c0. apply pop_block_kept.
Qed.

Lemma fetch_branch_own_id ix fuel : ∀ a b l1 l2,
  index_wf ix → own_id a → own_id b →
  fetch_branch fuel ix a b = Some (l1, l2) →
  Forall own_id l1 ∧ Forall own_id l2.
Proof.
  induction fuel as [|n IH]; intros a b l1 l2 Hwf Ha Hb; [done|].
  assert (∀ k it, ix !! k = Some it → own_id it) as Hix.
  { intros k it Hk. by destruct (index_wf_lookup _ _ _ Hwf Hk) as (_ & ? & _). }
  cbn [fetch_branch].
  destruct (item.id a =? item.id b).
  { intros Heq. apply (inj Some) in Heq. apply (f_equal fst) in Heq as E1.
    apply (f_equal snd) in Heq as E2. cbn [fst snd] in *. subst. by split. }
  destruct (item.num b <? item.num a).
  { destruct (ix !! item.previous_id a) as [pa|] eqn:Epa; [|done]. cbn [mbind option_bind].
    destruct (fetch_branch n ix pa b) as [[r1 r2]|] eqn:Er; [|done]. cbn [mbind option_bind fst snd].
    intros Heq. destruct (IH pa b r1 r2) as [F1 F2]; [by eauto..|].
    apply (inj Some) in Heq. apply (f_equal fst) in Heq as E1.
    apply (f_equal snd) in Heq as E2. cbn [fst snd] in *. subst.
    split; [try constructor|try constructor]; done. }
  destruct (item.num a <? item.num b).
  { destruct (ix !! item.previous_id b) as [pb|] eqn:Epb; [|done]. cbn [mbind option_bind].
    destruct (fetch_branch n ix a pb) as [[r1 r2]|] eqn:Er; [|done]. cbn [mbind option_bind fst snd].
    intros Heq. destruct (IH a pb r1 r2) as [F1 F2]; [by eauto..|].
    apply (inj Some) in Heq. apply (f_equal fst) in Heq as E1.
    apply (f_equal snd) in Heq as E2. cbn [fst snd] in *. subst.
    split; [try constructor|try constructor]; done. }
  destruct (ix !! item.previous_id a) as [pa|] eqn:Epa; [|done]. cbn [mbind option_bind].
  destruct (ix !! item.previous_id b) as [pb|] eqn:Epb; [|done]. cbn [mbind option_bind].
  destruct (fetch_branch n ix pa pb) as [[r1 r2]|] eqn:Er; [|done]. cbn [mbind option_bind fst snd].
  intros Heq. destruct (IH pa pb r1 r2) as [F1 F2]; [by eauto..|].
  apply (inj Some) in Heq. apply (f_equal fst) in Heq as E1.
  apply (f_equal snd) in Heq as E2. cbn [fst snd] in *. subst.
  split; constructor; done.
Qed.

(** The branch of the deeper side begins with its tip. *)
Lemma fetch_branch_tip ix fuel a b l1 l2 :
  fetch_branch (S fuel) ix a b = Some (l1, l2) →
  item.id a ≠ item.id b → item.num a < item.num b →
  ∃ l2', l2 = b :: l2'.
Proof.
  intros Hf Hid Hnum. cbn [fetch_branch] in Hf.
  destruct (N.eqb_spec (item.id a) (item.id b)); [done|].
  destruct (N.ltb_spec (item.num b) (item.num a)); [lia|].
  destruct (N.ltb_spec (item.num a) (item.num b)); [|lia].
  destruct (ix !! item.previous_id b) as [pb|]; [|done]. cbn [mbind option_bind] in Hf.
  destruct (fetch_branch fuel ix a pb) as [[r1 r2]|]; [|done].
  cbn [mbind option_bind fst snd] in Hf.
  apply (inj Some) in Hf. apply (f_equal snd) in Hf. cbn [snd] in Hf. eauto.
Qed.

(** One block of a branch applied and marked. *)
Lemma apply_block_marked it skip c c' :
  apply_block (item.data it) skip c = (Returned (), c') →
  own_id it → index_wf (_index (_fork_db c)) →
  let c'' := set_fork_db (mark_applied (item.id it) (_fork_db c')) c' in
  signed_block.previous (item.data it) = head_block_id c
  ∧ head_block_id c'' = item.id it
  ∧ head_block_num c'' = block_num (item.data it)
  ∧ head_numbered c''
  ∧ index_wf (_index (_fork_db c''))
  ∧ ∀ n, validated_le n (_index (_fork_db c)) → block_num (item.data it) ≤ n →
         validated_le n (_index (_fork_db c'')).
Proof.
  intros Hrun Hown Hwf c''.
  destruct (apply_block_head _ _ _ _ Hrun) as (Hprev & Hid & Hnum).
  pose proof (apply_block_frame (item.data it) skip c) as (_ & _ & Hsub & _).
  rewrite Hrun in Hsub. cbn [snd] in Hsub.
  assert (index_wf (_index (_fork_db c'))) as Hwf' by by eapply index_wf_subseteq.
  split_and!.
  - done.
  - change (head_block_id c'') with (head_block_id c'). by rewrite Hid, Hown.
  - exact Hnum.
  - unfold head_numbered. change (head_block_id c'') with (head_block_id c').
    change (head_block_num c'') with (head_block_num c').
    by rewrite Hid, Hnum, num_from_block_id.
  - unfold c''. cbn [_fork_db set_fork_db mark_applied _index]. by apply index_wf_alter.
  - intros n Hle Hn. unfold c''. cbn [_fork_db set_fork_db mark_applied _index].
    apply validated_le_mark_applied; [done| |by eapply validated_le_subseteq].
    by rewrite Hown, num_from_block_id.
Qed.

Lemma apply_branch_numbered l : ∀ c c2 n,
  apply_branch l c = (Returned None, c2) →
  Forall own_id l → head_numbered c → index_wf (_index (_fork_db c)) →
  validated_le (N.max n (head_block_num c)) (_index (_fork_db c)) →
  head_numbered c2
  ∧ head_block_num c ≤ head_block_num c2
  ∧ index_wf (_index (_fork_db c2))
  ∧ validated_le (N.max n (head_block_num c2)) (_index (_fork_db c2))
  ∧ head_block_id c2 = default (head_block_id c) (item.id <$> last l).
Proof.
  induction l as [|it l IH]; intros c c2 n Hrun Hown Hnumd Hwf Hle.
  { cbn [apply_branch] in Hrun. apply (f_equal snd) in Hrun. cbn [snd] in Hrun.
    subst c2. by split_and!. }
  cbn [apply_branch] in Hrun.
  destruct (apply_block (item.data it) (_skip_flags c) c) as [[[]|e] c'] eqn:Hap;
    [|apply (f_equal fst) in Hrun; cbn [fst] in Hrun; discriminate Hrun].
  apply Forall_cons in Hown as [Hit Hown].
  destruct (apply_block_marked it _ c c' Hap Hit Hwf)
    as (Hprev & Hid & Hnum & Hnumd' & Hwf' & Hle').
  set (c'' := set_fork_db (mark_applied (item.id it) (_fork_db c')) c') in *.
  assert (head_block_num c'' = head_block_num c + 1) as Hstep.
  { rewrite Hnum. unfold block_num. by rewrite Hprev, Hnumd. }
  destruct (IH c'' c2 n Hrun Hown Hnumd' Hwf') as (? & ? & ? & ? & Hhead).
  { apply Hle'; [|lia]. eapply validated_le_mono; [|exact Hle]. lia. }
  split_and!; [done|lia|done|done|].
  rewrite Hhead, last_cons. destruct (last l); [done|]. by rewrite Hid.
Qed.

Lemma apply_branch_first it l c c2 n :
  apply_branch (it :: l) c = (Returned None, c2) →
  Forall own_id (it :: l) → index_wf (_index (_fork_db c)) →
  validated_le n (_index (_fork_db c)) →
  head_numbered c2
  ∧ index_wf (_index (_fork_db c2))
  ∧ validated_le (N.max n (head_block_num c2)) (_index (_fork_db c2))
  ∧ Some (head_block_id c2) = item.id <$> last (it :: l).
Proof.
  intros Hrun Hown Hwf Hle. cbn [apply_branch] in Hrun.
  destruct (apply_block (item.data it) (_skip_flags c) c) as [[[]|e] c'] eqn:Hap;
    [|apply (f_equal fst) in Hrun; cbn [fst] in Hrun; discriminate Hrun].
  apply Forall_cons in Hown as [Hit Hown].
  destruct (apply_block_marked it _ c c' Hap Hit Hwf)
    as (Hprev & Hid & Hnum & Hnumd' & Hwf' & Hle').
  set (c'' := set_fork_db (mark_applied (item.id it) (_fork_db c')) c') in *.
  destruct (apply_branch_numbered l c'' c2 n Hrun Hown Hnumd' Hwf') as (? & ? & ? & ? & Hhead).
  { apply Hle'; [|lia]. eapply validated_le_mono; [|exact Hle]. lia. }
  split_and!; [done|done|done|].
  rewrite Hhead, last_cons. destruct (last l); [done|]. by rewrite Hid.
Qed.

Lemma head_inv_transfer c c' :
  get_dynamic_global_properties c' = get_dynamic_global_properties c →
  _fork_db c' = _fork_db c →
  head_inv c → head_inv c'.
Proof.
  intros Hd Hf. unfold head_inv, head_numbered, head_is_highest, head_block_id,
    head_block_num. by rewrite Hd, Hf.
Qed.

Lemma head_inv_index_kept c c' :
  get_dynamic_global_properties c' = get_dynamic_global_properties c →
  index_kept c c' → head_inv c → head_inv c'.
Proof.
  intros Hd [Hwf Hle] (Hn & Hw & Hh).
  unfold head_inv, head_numbered, head_is_highest, head_block_id, head_block_num in *.
  rewrite Hd. split_and!; [done|by apply Hwf|by apply Hle].
Qed.

Lemma head_inv_mark_invalid bad c : head_inv c → head_inv (mark_invalid bad c).
Proof. apply head_inv_index_kept; [done|apply mark_invalid_kept]. Qed.

(** A scope without pending transactions keeps the invariant when its body
    does, started without a pending session. *)
Lemma without_pending_inv {A} (f : M A) c :
  chain_inv c →
  (∀ c0, _pending_tx_session c0 = None → head_inv c0 →
         get_dynamic_global_properties c0 = get_dynamic_global_properties c →
         _fork_db c0 = _fork_db c →
         _pending_tx_session (f c0).2 = None ∧ head_inv (f c0).2) →
  chain_inv (without_pending_transactions push_transaction f c).2.
Proof.
  intros [Hp Hi] Hf. rewrite without_pending_transactions_run. cbn [fst snd].
  set (c0 := (reset_pending_tx_session (set_pending_transactions [] c)).2).
  assert (get_dynamic_global_properties c0 = get_dynamic_global_properties c) as Hd0.
  { unfold c0. rewrite cleared_pending_head_state.
    change (get_dynamic_global_properties (set_skip_flags (_skip_flags c) (head_state c)))
      with (get_dynamic_global_properties (head_state c)).
    by apply head_state_dgp. }
  assert (_fork_db c0 = _fork_db c) as Hf0.
  { unfold c0. rewrite cleared_pending_head_state.
    change (_fork_db (set_skip_flags (_skip_flags c) (head_state c)))
      with (_fork_db (head_state c)).
    apply head_state_fork_db. }
  assert (head_inv c0) as Hi0 by by apply (head_inv_transfer c).
  destruct (Hf c0 (cleared_pending_session c) Hi0 Hd0 Hf0) as [Hs Hi1].
  apply session_none_consistent in Hs.
  destruct (resubmit_pending (_pending_transactions c) (flag_value skip_nothing) _ Hs)
    as (Hh & Hp' & _).
  split; [done|]. apply (head_inv_transfer (f c0).2); [| |done].
  - by apply same_head_state_dgp.
  - by rewrite <- head_state_fork_db, Hh, head_state_fork_db.
Qed.

Lemma push_head_body_inv b c0 :
  head_inv c0 →
  head_inv
    (match apply_block b (_skip_flags c0) c0 with
     | (Returned _, c') =>
         (Returned (), set_fork_db (mark_applied (block_id b) (_fork_db c')) c')
     | (Thrown e, c') => (Thrown e, mark_invalid (block_id b) c')
     end).2.
Proof.
  intros (Hn & Hw & Hh).
  pose proof (apply_block_frame b (_skip_flags c0) c0) as (_ & _ & Hsub & Hr).
  destruct (apply_block b (_skip_flags c0) c0) as [[[]|e] c'] eqn:Hap; cbn [fst snd] in *.
  - destruct (apply_block_marked (make_item b) _ c0 c' Hap) as
      (Hprev & Hid & Hnum & Hnumd & Hwf' & Hle'); [done|done|].
    cbn [make_item item.id item.data] in *.
    split_and!; [done|done|].
    assert (head_block_num c0 + 1 = block_num b) as Hstep.
    { unfold block_num. by rewrite Hprev, Hn. }
    unfold head_is_highest.
    change (head_block_num (set_fork_db (mark_applied (block_id b) (_fork_db c')) c'))
      with (head_block_num c') in *.
    rewrite Hnum. apply Hle'; [|done].
    eapply validated_le_mono; [|exact Hh]. lia.
  - apply head_inv_mark_invalid.
    apply (head_inv_index_kept c0); [|by apply index_kept_subseteq|by split_and!].
    unfold get_dynamic_global_properties. by rewrite Hr.
Qed.

Lemma switch_fork_body_inv new_head c0 :
  head_inv c0 →
  _index (_fork_db c0) !! item.id new_head = Some new_head →
  head_block_num c0 < item.num new_head →
  head_inv
    (match fetch_branch_from (_fork_db c0) (head_block_id c0) (item.id new_head) with
     | None => (Thrown (chain_error ReorgFailure), mark_invalid (item.id new_head) c0)
     | Some (pop_list, push_list) =>
         match for_each pop_list (λ _, pop_block) c0 with
         | (Thrown e, _) => (Thrown e, mark_invalid (item.id new_head) c0)
         | (Returned _, c1) =>
             match apply_branch (reverse push_list) c1 with
             | (Returned None, c2) => (Returned (), c2)
             | (Returned (Some bad), _) =>
                 (Thrown (chain_error ReorgFailure), mark_invalid (item.id bad) c0)
             | (Thrown e, _) => (Thrown e, mark_invalid (item.id new_head) c0)
             end
         end
     end).2.
Proof.
  intros Hi Hnh Hlt. pose proof Hi as (Hn & Hw & Hh).
  destruct (fetch_branch_from _ _ _) as [[pop_list push_list]|] eqn:Hfetch;
    [|by apply head_inv_mark_invalid].
  pose proof (pop_blocks_kept pop_list c0) as [Hkw Hkl].
  destruct (for_each pop_list _ c0) as [[[]|e] c1]; cbn [fst snd] in *;
    [|by apply head_inv_mark_invalid].
  destruct (apply_branch (reverse push_list) c1) as [[[bad|]|e] c2] eqn:Hbr;
    cbn [fst snd]; [by apply head_inv_mark_invalid| |by apply head_inv_mark_invalid].
  (* the new branch applied in full *)
  unfold fetch_branch_from in Hfetch.
  destruct (_index (_fork_db c0) !! head_block_id c0) as [a|] eqn:Ha; [|done].
  rewrite Hnh in Hfetch. cbn [mbind option_bind] in Hfetch.
  destruct (index_wf_lookup _ _ _ Hw Ha) as (Hida & Howna & Hnuma).
  destruct (index_wf_lookup _ _ _ Hw Hnh) as (_ & Hownb & Hnumb).
  assert (item.num a = head_block_num c0) as Hna.
  { rewrite (item_wf_num (head_block_id c0) a) by by split_and!. exact Hn. }
  assert (item.id a ≠ item.id new_head) as Hne.
  { intros Heq. assert (a = new_head) as -> by congruence. lia. }
  destruct (fetch_branch_tip _ _ _ _ _ _ Hfetch Hne) as [push_tail ->]; [lia|].
  destruct (fetch_branch_own_id _ _ _ _ _ _ Hw Howna Hownb Hfetch) as [_ Hown].
  rewrite reverse_cons in Hbr.
  destruct (reverse push_tail ++ [new_head]) as [|it l] eqn:Hl.
  { by destruct (reverse push_tail). }
  destruct (apply_branch_first it l c1 c2 (head_block_num c0) Hbr) as (Hn2 & Hw2 & Hle2 & Hhd).
  { rewrite <- Hl, <- reverse_cons. by apply Forall_reverse. }
  { by apply Hkw. }
  { by apply Hkl. }
  rewrite <- Hl, last_snoc in Hhd. cbn [fmap option_fmap option_map] in Hhd.
  apply (inj Some) in Hhd.
  assert (head_block_num c2 = item.num new_head) as Hnum2.
  { rewrite <- Hn2, Hhd. symmetry. by apply item_wf_num. }
  split_and!; [done|done|].
  unfold head_is_highest. eapply validated_le_mono; [|exact Hle2]. lia.
Qed.

Lemma fork_head_lookup f h :
  index_wf (_index f) → fork_head f = Some h → _index f !! item.id h = Some h.
Proof.
  unfold fork_head. intros Hwf Hh.
  destruct (_head f) as [i|]; [|done]. cbn [mbind option_bind] in Hh.
  by destruct (index_wf_lookup _ _ _ Hwf Hh) as (-> & _).
Qed.

Lemma _push_block_inv b c : chain_inv c → chain_inv (_push_block b c).2.
Proof.
  intros Hc. pose proof Hc as (Hp & Hn & Hw & Hh).
  unfold _push_block. rewrite bind_run, gets_run. cbv beta iota delta [id].
  destruct (is_known_block c (block_id b)); [done|].
  destruct (fork_db_add b (_fork_db c)) as [f|] eqn:Hadd; [|done].
  rewrite bind_run, modify_run. cbv beta iota.
  assert (chain_inv (set_fork_db f c)) as Hc'.
  { split; [done|]. split_and!; [done|by eapply index_wf_add|].
    unfold head_is_highest. by eapply validated_le_add. }
  destruct (fork_head f) as [new_head|] eqn:Hfh; [|done].
  destruct (item.previous_id new_head =? head_block_id c).
  - rewrite bind_run.
    assert (chain_inv (push_head_block b (set_fork_db f c)).2) as Hres.
    { unfold push_head_block. apply without_pending_inv; [done|].
      intros c0 Hs0 Hi0 _ _. split; [by rewrite push_head_body_session|].
      by apply push_head_body_inv. }
    by destruct (push_head_block b (set_fork_db f c)) as [[[]|e] c2].
  - destruct (N.ltb_spec (head_block_num c) (item.num new_head)) as [Hlt|]; [|done].
    rewrite bind_run.
    assert (chain_inv (switch_fork new_head (set_fork_db f c)).2) as Hres.
    { unfold switch_fork. apply without_pending_inv; [done|].
      intros c0 Hs0 Hi0 Hd0 Hf0. split; [by apply switch_fork_body_session|].
      apply switch_fork_body_inv; [done| |].
      - rewrite Hf0. apply fork_head_lookup; [|done]. by eapply index_wf_add.
      - unfold head_block_num. by rewrite Hd0. }
    by destruct (switch_fork new_head (set_fork_db f c)) as [[[]|e] c2].
Qed.

Lemma push_block_inv b skip c : chain_inv c → chain_inv (push_block b skip c).2.
Proof.
  intros Hc. unfold push_block. rewrite with_skip_flags_run. cbn [fst snd].
  exact (_push_block_inv b (set_skip_flags skip c) Hc).
Qed.

(** On the modelled algorithm, from a controller that satisfies the
    invariant (a genesis does), after every block of any sequence of
    [push_block] calls no validated block of the fork database has a number
    greater than the head's; the invariant holds again. *)
Lemma head_has_greatest_number (c : chain_controller)
    (blocks : list (signed_block * Z)) :
  chain_inv c →
  Forall (λ s, chain_inv s
               ∧ ∀ k it, _index (_fork_db s) !! k = Some it →
                         item.validated it = true →
                         item.num it ≤ head_block_num s)
    (push_all c blocks).
Proof.
  revert c. induction blocks as [|[b skip] l IH]; intros c Hc; cbn [push_all].
  - constructor.
  - pose proof (push_block_inv b skip c Hc) as Hc'. constructor; [|by apply IH].
    split; [done|]. destruct Hc' as (_ & _ & _ & Hh). intros k it.
    by apply validated_le_lookup.
Qed.

(** * Further properties of the header's code *)

(** ** Scopes within scopes *)

(** X1. Skip flags do not accumulate: a [with_skip_flags] scope directly
    inside another runs its body with the inner flags alone, and the two
    scopes together behave as the inner one. *)
Theorem with_skip_flags_nested {A} (outer inner : Z) (f : M A) (c : chain_controller) :
  with_skip_flags outer (with_skip_flags inner f) c = with_skip_flags inner f c.
Proof. by rewrite !with_skip_flags_run. Qed.

Lemma with_producing_run {A} (f : M A) c :
  with_producing f c
  = ((f (set_producing true c)).1,
     set_producing (_producing c) (f (set_producing true c)).2).
Proof. done. Qed.

(** X2. The two scopes commute: the skip-flag scope around the producing
    scope gives the outcome and the controller of the producing scope around
    the skip-flag scope. *)
Theorem scopes_commute {A} (flags : Z) (f : M A) (c : chain_controller) :
  with_skip_flags flags (with_producing f) c
  = with_producing (with_skip_flags flags f) c.
Proof. by rewrite !with_skip_flags_run, !with_producing_run, !with_skip_flags_run. Qed.

Lemma set_skip_flags_back flags c : set_skip_flags (_skip_flags c) (set_skip_flags flags c) = c.
Proof. by destruct c. Qed.

(** X3. Inside a [with_skip_flags] scope the TaPoS check and the duplicate
    check are decided by bits 5 and 2 of the flags passed, whatever the flags
    were before; reading them leaves the controller exactly as it was. *)
Theorem checks_follow_scope (flags : Z) (c : chain_controller) :
  with_skip_flags flags (gets should_check_tapos) c
  = (Returned (negb (Z.testbit flags 5)), c)
  ∧ with_skip_flags flags (gets should_check_for_duplicate_transactions) c
    = (Returned (negb (Z.testbit flags 2)), c).
Proof.
  rewrite !with_skip_flags_run, !gets_run. cbn [fst snd].
  rewrite set_skip_flags_back, should_check_tapos_bit,
    should_check_for_duplicate_transactions_bit. done.
Qed.

(** ** The flag word *)

Lemma flag_set_lor_bit a b bit s :
  (0 ≤ bit)%Z → flag_value s = (2 ^ bit)%Z →
  flag_set (Z.lor a b) s = flag_set a s || flag_set b s.
Proof.
  intros Hb Hs. rewrite !(flag_set_testbit _ bit s) by done. apply Z.lor_spec.
Qed.

(** X4. Flags combine with bitwise or: a step is skipped under [a | b]
    exactly when it is under [a] or under [b]. The word of one step sets that
    step and no other, [skip_nothing] is never set, and every enumerator fits
    in twelve bits. *)
Theorem flags_combine :
  (∀ a b s, flag_set (Z.lor a b) s = flag_set a s || flag_set b s)
  ∧ (∀ flags, flag_set flags skip_nothing = false)
  ∧ (∀ s s', flag_set (flag_value s) s'
             = bool_decide (s = s') && bool_decide (s ≠ skip_nothing))
  ∧ (∀ s, (0 ≤ flag_value s < 2 ^ 12)%Z).
Proof.
  split_and!.
  - intros a b s. destruct s.
    + unfold flag_set. simpl. by rewrite !Z.land_0_r.
    + by apply (flag_set_lor_bit _ _ 0).
    + by apply (flag_set_lor_bit _ _ 1).
    + by apply (flag_set_lor_bit _ _ 2).
    + by apply (flag_set_lor_bit _ _ 3).
    + by apply (flag_set_lor_bit _ _ 4).
    + by apply (flag_set_lor_bit _ _ 5).
    + by apply (flag_set_lor_bit _ _ 6).
    + by apply (flag_set_lor_bit _ _ 7).
    + by apply (flag_set_lor_bit _ _ 8).
    + by apply (flag_set_lor_bit _ _ 9).
    + by apply (flag_set_lor_bit _ _ 10).
    + by apply (flag_set_lor_bit _ _ 11).
  - intros flags. unfold flag_set. simpl. by rewrite Z.land_0_r.
  - intros s s'. destruct s, s'; reflexivity.
  - intros s. destruct s; split; by vm_compute.
Qed.

(** ** [without_pending_transactions] at its edges *)

Lemma without_pending_idle {A}
    (push_transaction : SignedTransaction → Z → M unit) (f : M A) (c : chain_controller) :
  _pending_transactions c = [] → _pending_tx_session c = None →
  without_pending_transactions push_transaction f c = f c.
Proof.
  intros Hq Hs. rewrite without_pending_transactions_run, Hq. cbn [foldl].
  assert ((reset_pending_tx_session (set_pending_transactions [] c)).2 = c) as ->.
  { unfold reset_pending_tx_session. rewrite modify_run. cbn [snd].
    destruct c; simpl in *. by subst. }
  by destruct (f c).
Qed.

(** X5. With nothing pending (an empty queue and no pending session) the
    modifier is its body: same outcome, same controller. *)
Theorem without_pending_nothing_pending {A}
    (push_transaction : SignedTransaction → Z → M unit) (f : M A) (c : chain_controller) :
  _pending_transactions c = [] → _pending_tx_session c = None →
  without_pending_transactions push_transaction f c = f c.
Proof. apply without_pending_idle. Qed.

(** X13. A scope without pending transactions directly inside another adds
    nothing: the inner one finds the queue empty and no session, and the old
    queue is submitted again once, by the outer one. *)
Theorem without_pending_nested {A}
    (push_transaction : SignedTransaction → Z → M unit) (f : M A) (c : chain_controller) :
  without_pending_transactions push_transaction
    (without_pending_transactions push_transaction f) c
  = without_pending_transactions push_transaction f c.
Proof.
  rewrite (without_pending_transactions_run _ (without_pending_transactions _ f)).
  rewrite without_pending_idle.
  - by rewrite <- without_pending_transactions_run.
  - unfold reset_pending_tx_session. rewrite modify_run. cbn [snd].
    by destruct (_pending_tx_session (set_pending_transactions [] c)).
  - apply cleared_pending_session.
Qed.


(** ** [register_type] and the type index *)

Lemma register_type_constructor_key stru scope o :
  by_scope_name (register_type_constructor stru scope o) = (scope, Struct.name stru)
  ∧ type_object.id (register_type_constructor stru scope o) = type_object.id o.
Proof.
  unfold register_type_constructor, by_scope_name.
  match goal with |- context [foldl ?g ?o1 ?l] =>
    destruct (push_back_all l o1) as (_ & -> & -> & -> & _) end.
  done.
Qed.

(** What [register_type] does, case by case. *)
Lemma register_type_run stru scope c :
  let o := state (_db c) in
  let v := register_type_constructor stru scope
             (set_id (type_next_id o) type_object_default) in
  register_type stru scope c
  = if bool_decide (Exists (λ w, type_object.id w = type_next_id o
                                 ∨ by_scope_name w = (scope, Struct.name stru))
                      (type_index o))
    then (Thrown logic_error, c)
    else (Returned (),
          set_db (set_state (set_type_index (type_index o ++ [v]) (type_next_id o + 1) o)
                    (_db c)) c).
Proof.
  cbv zeta. unfold register_type. rewrite bind_run. unfold create_type_object.
  destruct (register_type_constructor_key stru scope
              (set_id (type_next_id (state (_db c))) type_object_default)) as [Hk Hi].
  rewrite Hk, Hi. cbn [set_id type_object.id].
  case_bool_decide as Hex; [done|].
  rewrite bind_run. unfold get_type_object. cbn [_db set_db state set_state type_index
    set_type_index].
  rewrite find_type_new; [done| |done].
  intros Hdup. apply Hex. eapply Exists_impl; [exact Hdup|]. tauto.
Qed.

(** X7. [register_type] ends in one of two ways: it returns, or it throws
    the store's [logic_error] with the controller untouched. The [get] that
    closes it always finds the object just created, so [out_of_range] is never
    thrown. *)
Theorem register_type_outcomes (stru : Struct) (scope : AccountName) (c : chain_controller) :
  (register_type stru scope c).1 = Returned ()
  ∨ register_type stru scope c = (Thrown logic_error, c).
Proof.
  rewrite register_type_run. cbv zeta. case_bool_decide; [by right|by left].
Qed.

(** X8. A second registration under the same scope and name throws
    [logic_error] and changes nothing, whatever base and fields it brings. *)
Theorem register_type_twice (stru stru' : Struct) (scope : AccountName)
    (c c' : chain_controller) :
  register_type stru scope c = (Returned (), c') →
  Struct.name stru' = Struct.name stru →
  register_type stru' scope c' = (Thrown logic_error, c').
Proof.
  rewrite register_type_run. cbv zeta. case_bool_decide as Hex; [done|].
  intros Heq Hname. apply (f_equal snd) in Heq. cbn [snd] in Heq. subst c'.
  rewrite register_type_run. cbv zeta.
  cbn [_db set_db state set_state type_index set_type_index].
  rewrite bool_decide_eq_true_2; [done|].
  apply Exists_app. right. apply Exists_cons. left. right. rewrite Hname.
  apply register_type_constructor_key.
Qed.

(** X9. A registration that returns adds one object at the end of the type
    index and moves the id counter by one; every other key finds what it
    found before, and nothing else in the controller changes. *)
Theorem register_type_frame (stru : Struct) (scope : AccountName)
    (c c' : chain_controller) :
  register_type stru scope c = (Returned (), c') →
  type_frame c c'
  ∧ type_next_id (state (_db c')) = type_next_id (state (_db c)) + 1
  ∧ (∃ v, type_index (state (_db c')) = type_index (state (_db c)) ++ [v]
          ∧ type_object.id v = type_next_id (state (_db c)))
  ∧ ∀ key, key ≠ (scope, Struct.name stru) →
           find_type key (type_index (state (_db c')))
           = find_type key (type_index (state (_db c))).
Proof.
  rewrite register_type_run. cbv zeta. case_bool_decide as Hex; [done|].
  intros Heq. apply (f_equal snd) in Heq. cbn [snd] in Heq. subst c'.
  cbn [_db set_db state set_state type_index set_type_index type_next_id].
  destruct (register_type_constructor_key stru scope
              (set_id (type_next_id (state (_db c))) type_object_default)) as [Hk Hi].
  split_and!.
  - by repeat split.
  - done.
  - eexists. split; [done|]. by rewrite Hi.
  - intros key Hkey. unfold find_type.
    destruct (list_find (λ o, by_scope_name o = key) (type_index (state (_db c))))
      as [[i w]|] eqn:Hfind.
    + by rewrite (list_find_app_l _ _ _ _ _ Hfind).
    + rewrite list_find_app_r by done. cbn [list_find].
      rewrite decide_False; [done|]. by rewrite Hk.
Qed.

(** X10. In a store whose type objects all have ids below the counter, a
    registration returns exactly when its key is free, and the store is of
    that kind again afterwards. *)
Theorem register_type_fresh_ids (stru : Struct) (scope : AccountName)
    (c : chain_controller) :
  ids_fresh (state (_db c)) →
  ((register_type stru scope c).1 = Returned ()
   ↔ find_type (scope, Struct.name stru) (type_index (state (_db c))) = None)
  ∧ ids_fresh (state (_db (register_type stru scope c).2)).
Proof.
  intros Hfresh. rewrite register_type_run. cbv zeta.
  assert (¬ Exists (λ w, type_object.id w = type_next_id (state (_db c)))
            (type_index (state (_db c)))) as Hid.
  { intros Hex. apply Exists_exists in Hex as (w & Hw & Heq).
    unfold ids_fresh in Hfresh. rewrite Forall_forall in Hfresh.
    specialize (Hfresh w Hw). lia. }
  assert (find_type (scope, Struct.name stru) (type_index (state (_db c))) = None
          ↔ ¬ Exists (λ w, by_scope_name w = (scope, Struct.name stru))
                (type_index (state (_db c)))) as Hkey.
  { unfold find_type.
    destruct (list_find _ _) as [[i w]|] eqn:Hfind; cbn [mbind option_bind].
    - apply list_find_Some in Hfind as (Hi & Hw & _).
      split; [done|]. intros Hno. exfalso. apply Hno, Exists_exists.
      exists w. split; [|done]. by eapply list_elem_of_lookup_2.
    - split; [|done]. intros _ Hex. apply list_find_None in Hfind.
      apply Exists_exists in Hex as (w & Hw & Hk). rewrite Forall_forall in Hfind.
      by apply (Hfind w). }
  case_bool_decide as Hex; cbn [fst snd].
  - split; [|done]. split; [done|]. intros Hnone. exfalso.
    apply Exists_exists in Hex as (w & Hw & [Hw1|Hw2]).
    + apply Hid, Exists_exists. eauto.
    + apply Hkey in Hnone. apply Hnone, Exists_exists. eauto.
  - split.
    + split; [|done]. intros _. apply Hkey. intros Hex'. apply Hex.
      apply Exists_exists in Hex' as (w & Hw & Hk). apply Exists_exists. eauto.
    + unfold ids_fresh.
      cbn [_db set_db state set_state type_index set_type_index type_next_id].
      apply Forall_app. split.
      * eapply Forall_impl; [exact Hfresh|]. intros w Hw. cbn beta in Hw. lia.
      * apply Forall_singleton.
        destruct (register_type_constructor_key stru scope
                    (set_id (type_next_id (state (_db c))) type_object_default)) as [_ ->].
        cbn [set_id type_object.id]. lia.
Qed.

Lemma validate_transaction_pure trx c : (validate_transaction trx c).2 = c.
Proof.
  apply preserves_eq_pure.
  unfold validate_transaction, validate_expiration, validate_uniqueness,
    validate_tapos, validate_referenced_accounts, validate_message_types,
    validate_authority, validate_message, validate_message_precondition.
  repeat preserves_step.
Qed.

(** ** Slots *)

(** X11. [get_slot_at_time] is, as documented, the greatest slot whose time
    is at or before the time given; it is 0 for every time before slot 1. *)
Theorem get_slot_at_time_documented (c : chain_controller) (t : time_point_sec) :
  0 < block_interval c →
  get_slot_time c (get_slot_at_time c t) ≤ t
  ∧ (∀ n, get_slot_time c n ≤ t → n ≤ get_slot_at_time c t)
  ∧ (t < get_slot_time c 1 → get_slot_at_time c t = 0).
Proof.
  intros Hi. destruct (get_slot_at_time_greatest c t Hi) as [Hle Hmax].
  split_and!; [done|done|].
  intros Hlt. unfold get_slot_at_time.
  by destruct (N.ltb_spec t (get_slot_time c 1)); [|lia].
Qed.

(** X12. From slot 1 on, slot times are one block interval apart, and every
    time from a slot's time up to the next slot's belongs to that slot. *)
Theorem slots_tile_time (c : chain_controller) (n : N) (t : time_point_sec) :
  0 < block_interval c → 0 < n →
  get_slot_time c (n + 1) = get_slot_time c n + block_interval c
  ∧ (get_slot_time c n ≤ t < get_slot_time c (n + 1) → get_slot_at_time c t = n).
Proof.
  intros Hi Hn.
  assert (get_slot_time c (n + 1) = get_slot_time c n + block_interval c) as Hstep.
  { rewrite !get_slot_time_positive by lia. lia. }
  split; [done|]. intros [Hlo Hhi].
  destruct (get_slot_at_time_greatest c t Hi) as [Hle Hmax].
  apply N.le_antisymm; [|by apply Hmax].
  destruct (N.le_gt_cases (get_slot_at_time c t) n) as [|Hgt]; [done|exfalso].
  assert (get_slot_time c (n + 1) ≤ get_slot_time c (get_slot_at_time c t)); [|lia].
  rewrite !get_slot_time_positive by lia.
  apply N.mul_le_mono_r. lia.
Qed.

End ControllerFacts.

(** * The properties on the sample chain *)

Section SampleFacts.
Import Sample.

Lemma skip_flags_match_table_witness :
  Z.testbit (_skip_flags (set_skip_flags 32 genesis)) 5 = true
  ∧ validate_tapos tx1 (set_skip_flags 32 genesis) = (Returned (), set_skip_flags 32 genesis)
  ∧ validate_expiration tx1 (set_skip_flags 32 genesis)
    = (Returned (), set_skip_flags 32 genesis).
Proof.
  split; [reflexivity|].
  destruct skip_flags_match_table as (_ & _ & _ & _ & _ & _ & Hskip).
  apply Hskip. reflexivity.
Defined.

Lemma register_type_registers_witness :
  register_type Transfer 7 genesis = (Returned (), (register_type Transfer 7 genesis).2)
  ∧ ∃ o, get_type_object (7, "Transfer") (register_type Transfer 7 genesis).2
         = (Returned o, (register_type Transfer 7 genesis).2)
         ∧ o ∈ type_index (state (_db (register_type Transfer 7 genesis).2))
         ∧ type_object.scope o = 7
         ∧ type_object.name o = "Transfer"
         ∧ type_object.base o = ""
         ∧ type_object.fields o = Struct.fields Transfer
         ∧ type_object.base_scope o = type_object.base_scope type_object_default.
Proof.
  split; [reflexivity|].
  apply (register_type_registers Transfer 7 genesis). reflexivity.
Defined.

Lemma get_slot_time_spec_witness :
  0 < block_interval genesis
  ∧ 0 < 4
  ∧ head_block_time genesis ≤ get_slot_time genesis 4
  ∧ head_block_time genesis < get_slot_time genesis 4
  ∧ interval_aligned genesis (get_slot_time genesis 4)
  ∧ slots_elapsed genesis (get_slot_time genesis 4) = 4
  ∧ ∀ t, head_block_time genesis ≤ t → slots_elapsed genesis t = 4
         → get_slot_time genesis 4 ≤ t.
Proof.
  split; [reflexivity|]. split; [reflexivity|].
  apply (get_slot_time_spec genesis 4); reflexivity.
Defined.

Lemma slot_round_trip_witness :
  0 < block_interval genesis ∧ 0 < 4
  ∧ get_slot_at_time genesis (get_slot_time genesis 4) = 4.
Proof.
  split; [reflexivity|]. split; [reflexivity|].
  apply (slot_round_trip genesis 4); reflexivity.
Defined.

(** The transaction that fails in its second message has counted by then;
    its session takes that back. *)
Example tx_boom_partial :
  contract (state (_db (_apply_transaction tx_boom (set_skip_flags 32 counter_chain)).2)) = 1
  ∧ (_apply_transaction tx_boom (set_skip_flags 32 counter_chain)).1
    = Thrown (chain_error HandlerAssert).
Proof. split; reflexivity. Qed.

Lemma apply_transaction_atomic_witness :
  apply_transaction tx_boom 32 counter_chain
  = (Thrown (chain_error HandlerAssert), counter_chain)
  ∧ counter_chain = counter_chain ∧ _db counter_chain = _db counter_chain.
Proof.
  split; [reflexivity|].
  apply (apply_transaction_atomic tx_boom 32 counter_chain counter_chain
           (chain_error HandlerAssert)).
  reflexivity.
Defined.

Lemma genesis_chain_inv : chain_inv genesis.
Proof.
  split; [exact I|]. split; [reflexivity|]. split; apply map_Forall_empty.
Defined.

(** The modelled algorithm reorganises for a greater number only: the same
    three blocks, all accepted, in two orders; the head is [b2] after one and
    [b2'] after the other, though both have number 2 and [b2] has the
    smaller id. *)
Lemma push_order_changes_head :
  [b1; b2'; b2] ≡ₚ [b1; b2; b2']
  ∧ block_num b2 = block_num b2' ∧ block_id b2 < block_id b2'
  ∧ head_block_id (push_blocks [b1; b2; b2'] genesis) = block_id b2
  ∧ head_block_id (push_blocks [b1; b2'; b2] genesis) = block_id b2'
  ∧ ¬ (head_block_id (push_blocks [b1; b2; b2'] genesis)
       = head_block_id (push_blocks [b1; b2'; b2] genesis)).
Proof.
  split_and!.
  - apply perm_skip, perm_swap.
  - reflexivity.
  - reflexivity.
  - vm_compute. reflexivity.
  - vm_compute. reflexivity.
  - apply N.eqb_neq. vm_compute. reflexivity.
Qed.

Lemma head_has_greatest_number_witness :
  chain_inv genesis
  ∧ Forall (λ s, chain_inv s
                 ∧ ∀ k it, _index (_fork_db s) !! k = Some it →
                           item.validated it = true →
                           item.num it ≤ head_block_num s)
      (push_all genesis [(b1, 0%Z); (b2', 0%Z); (b2, 0%Z)]).
Proof.
  split; [exact genesis_chain_inv|].
  apply (head_has_greatest_number genesis). exact genesis_chain_inv.
Defined.

(** The modelled store keeps the last irreversible block number under the
    block sessions: after the four blocks it is 2; [pop_block] returns and
    leaves it at 1, and pushing the fork [f3], [f4], [f5] reorganises and
    leaves it at 0. *)
Lemma irreversible_number_decreases :
  (pop_block chain4).1 = Returned ()
  ∧ ¬ (last_irreversible_block_num chain4
       ≤ last_irreversible_block_num (pop_block chain4).2)
  ∧ (push_block f5 0 (push_blocks [f3; f4] chain4)).1 = Returned true
  ∧ ¬ (last_irreversible_block_num (push_blocks [f3; f4] chain4)
       ≤ last_irreversible_block_num (push_block f5 0 (push_blocks [f3; f4] chain4)).2).
Proof.
  assert (last_irreversible_block_num chain4 = 2) as E1 by (vm_compute; reflexivity).
  assert (last_irreversible_block_num (pop_block chain4).2 = 1) as E2
    by (vm_compute; reflexivity).
  assert (last_irreversible_block_num (push_blocks [f3; f4] chain4) = 2) as E3
    by (vm_compute; reflexivity).
  assert (last_irreversible_block_num (push_block f5 0 (push_blocks [f3; f4] chain4)).2 = 0)
    as E4 by (vm_compute; reflexivity).
  rewrite E1, E2, E3, E4.
  split_and!; [vm_compute; reflexivity|lia|vm_compute; reflexivity|lia].
Qed.

Lemma last_irreversible_monotone_witness :
  pending_consistent (push_blocks [b1; b2; b3] genesis)
  ∧ push_block_path (push_blocks [b1; b2; b3] genesis) b4 ≠ reorganisation
  ∧ irreversibility_kept (push_blocks [b1; b2; b3] genesis)
      (push_block b4 0 (push_blocks [b1; b2; b3] genesis)).2
  ∧ irreversibility_kept (push_blocks [b1; b2; b3] genesis)
      (push_transaction tx1 0 (push_blocks [b1; b2; b3] genesis)).2.
Proof.
  assert (pending_consistent (push_blocks [b1; b2; b3] genesis)) as Hc
    by (vm_compute; exact I).
  assert (push_block_path (push_blocks [b1; b2; b3] genesis) b4 ≠ reorganisation) as Hp
    by (vm_compute; discriminate).
  split; [exact Hc|]. split; [exact Hp|].
  destruct (last_irreversible_monotone (push_blocks [b1; b2; b3] genesis) Hc)
    as (Htx & _ & _ & _ & Hpush).
  split; [exact (Hpush b4 0%Z Hp)|exact (Htx tx1 0%Z)].
Defined.

Lemma same_blocks_same_head_state_witness :
  same_chain (push_blocks [b1] genesis)
    (push_transaction tx1 0 (push_blocks [b1] genesis)).2
  ∧ Forall2 (λ s1 s2, head_state s1 = head_state s2)
      (push_all (push_blocks [b1] genesis) [(b2, 0%Z); (b3, 0%Z)])
      (push_all (push_transaction tx1 0 (push_blocks [b1] genesis)).2
         [(b2, 0%Z); (b3, 0%Z)]).
Proof.
  assert (same_chain (push_blocks [b1] genesis)
            (push_transaction tx1 0 (push_blocks [b1] genesis)).2) as Hsc.
  { split; [vm_compute; reflexivity|]. split; [vm_compute; exact I|].
    vm_compute. do 2 eexists. split; reflexivity. }
  split; [exact Hsc|].
  apply (same_blocks_same_head_state _ _ _ Hsc).
Defined.

(** The instance with a pending transaction really has one. *)
Example pending_instance_differs :
  _pending_transactions (push_transaction tx1 0 (push_blocks [b1] genesis)).2 = [tx1]
  ∧ _pending_transactions (push_blocks [b1] genesis) = [].
Proof. split; vm_compute; reflexivity. Qed.

Lemma without_pending_nothing_pending_witness :
  _pending_transactions genesis = [] ∧ _pending_tx_session genesis = None
  ∧ without_pending_transactions push_transaction (gets head_block_num) genesis
    = gets head_block_num genesis.
Proof.
  split; [reflexivity|]. split; [reflexivity|].
  apply (without_pending_nothing_pending push_transaction (gets head_block_num) genesis);
    reflexivity.
Defined.


Lemma register_type_twice_witness :
  register_type Transfer 7 genesis = (Returned (), (register_type Transfer 7 genesis).2)
  ∧ Struct.name Transfer' = Struct.name Transfer
  ∧ register_type Transfer' 7 (register_type Transfer 7 genesis).2
    = (Thrown logic_error, (register_type Transfer 7 genesis).2).
Proof.
  split; [reflexivity|]. split; [reflexivity|].
  apply (register_type_twice Transfer Transfer' 7 genesis); reflexivity.
Defined.

Lemma register_type_frame_witness :
  register_type Transfer 7 genesis = (Returned (), (register_type Transfer 7 genesis).2)
  ∧ type_frame genesis (register_type Transfer 7 genesis).2
  ∧ type_next_id (state (_db (register_type Transfer 7 genesis).2))
    = type_next_id (state (_db genesis)) + 1
  ∧ (∃ v, type_index (state (_db (register_type Transfer 7 genesis).2))
          = type_index (state (_db genesis)) ++ [v]
          ∧ type_object.id v = type_next_id (state (_db genesis)))
  ∧ ∀ key, key ≠ (7, Struct.name Transfer) →
           find_type key (type_index (state (_db (register_type Transfer 7 genesis).2)))
           = find_type key (type_index (state (_db genesis))).
Proof.
  split; [reflexivity|].
  apply (register_type_frame Transfer 7 genesis). reflexivity.
Defined.

Lemma register_type_fresh_ids_witness :
  ids_fresh (state (_db (register_type Transfer 7 genesis).2))
  ∧ ((register_type Transfer 8 (register_type Transfer 7 genesis).2).1 = Returned ()
     ↔ find_type (8, Struct.name Transfer)
         (type_index (state (_db (register_type Transfer 7 genesis).2))) = None)
  ∧ ids_fresh
      (state (_db (register_type Transfer 8 (register_type Transfer 7 genesis).2).2)).
Proof.
  assert (ids_fresh (state (_db (register_type Transfer 7 genesis).2))) as Hfresh.
  { apply Forall_cons. split; [reflexivity|apply Forall_nil_2]. }
  split; [exact Hfresh|].
  apply (register_type_fresh_ids Transfer 8 _ Hfresh).
Defined.

Lemma get_slot_at_time_documented_witness :
  0 < block_interval genesis
  ∧ get_slot_time genesis (get_slot_at_time genesis 2) ≤ 2
  ∧ (∀ n, get_slot_time genesis n ≤ 2 → n ≤ get_slot_at_time genesis 2)
  ∧ 2 < get_slot_time genesis 1
  ∧ get_slot_at_time genesis 2 = 0.
Proof.
  split; [reflexivity|].
  destruct (get_slot_at_time_documented genesis 2) as (Hle & Hmax & Hzero); [reflexivity|].
  split; [exact Hle|]. split; [exact Hmax|]. split; [reflexivity|].
  apply Hzero. reflexivity.
Defined.

Lemma slots_tile_time_witness :
  0 < block_interval genesis ∧ 0 < 2
  ∧ get_slot_time genesis 2 ≤ 7 < get_slot_time genesis (2 + 1)
  ∧ get_slot_time genesis (2 + 1) = get_slot_time genesis 2 + block_interval genesis
  ∧ get_slot_at_time genesis 7 = 2.
Proof.
  split; [reflexivity|]. split; [reflexivity|].
  assert (get_slot_time genesis 2 ≤ 7 < get_slot_time genesis (2 + 1)) as Hin
    by (vm_compute; split; [discriminate|reflexivity]).
  split; [exact Hin|].
  destruct (slots_tile_time genesis 2 7) as [Hstep Hslot]; [reflexivity|reflexivity|].
  split; [exact Hstep|exact (Hslot Hin)].
Defined.

End SampleFacts.
